(** * AlertIQ: a shallow embedding of the alert-email pipeline

    The development follows the layout of the Python package:

    - [Py]: the fragment of the Python runtime the package relies on
      (exceptions, [str] methods, binary64 floats, tenacity's [retry]);
    - [Json]: the decoder behind [json.loads];
    - [Models]: the data classes of [src/models.py];
    - [Services]: the answers of the outside world and the state of a run;
    - [Config], [LlmAnalyzer], [Database], [EmailSender], [EmailReader],
      [Processor], [Scheduler], [Main]: one module per source file;
    - [Samples]: the data of the test suite;
    - [Properties]: the vocabulary of the statements proved below.

    Text is a [string] holding the UTF-8 encoding of the Python [str];
    every operation the package performs on text (strip, find, rfind,
    slicing at the positions of ASCII characters, JSON decoding) commutes
    with that encoding.  Floats are the binary64 floats of
    [SpecFloat]; timestamps are integers (microseconds). *)

From Stdlib Require Import ZArith String Ascii List Bool Lia.
From Stdlib Require Import Floats.SpecFloat.
From stdpp Require Import base option list gmap strings.

Set Warnings "-register-all".
Local Open Scope string_scope.
Local Open Scope Z_scope.

(* ================================================================== *)
(** * The Python runtime *)
(* ================================================================== *)

Module Py.

(** Exceptions.  Every class used below derives from [Exception]; the
    payload is the text an f-string renders for [{e}]. *)
Inductive exn : Type :=
| JSONDecodeError (msg : string)
| ValueError (msg : string)
| TypeError (msg : string)
| KeyError (msg : string)
| RecursionError
| TransportError (msg : string)
| RetryError (last : exn).

Fixpoint exn_str (e : exn) : string :=
  match e with
  | JSONDecodeError m | ValueError m | TypeError m | KeyError m
  | TransportError m => m
  | RecursionError => "maximum recursion depth exceeded"
  | RetryError e' => "RetryError[" ++ exn_str e' ++ "]"
  end.

(** A call either returns or raises. *)
Inductive res (A : Type) : Type :=
| Ret (a : A)
| Raise (e : exn).
Arguments Ret {A} a.
Arguments Raise {A} e.

Definition res_bind {A B} (m : res A) (k : A -> res B) : res B :=
  match m with
  | Ret a => k a
  | Raise e => Raise e
  end.

(** [try: m  except Exception as e: h e]. *)
Definition try_except {A} (m : res A) (h : exn -> A) : A :=
  match m with
  | Ret a => a
  | Raise e => h e
  end.

Definition raises {A} (m : res A) : bool :=
  match m with Ret _ => false | Raise _ => true end.

(** ** Characters and [str] methods *)

Definition code (c : ascii) : N := N_of_ascii c.
Definition chr (n : N) : ascii := ascii_of_N n.

Definition dquote : ascii := chr 34.
Definition dq : string := String dquote EmptyString.
(** [q s] is [s] between double quotes. *)
Definition q (s : string) : string := dq ++ s ++ dq.
Definition nl : string := String (chr 10) EmptyString.

Definition chars (s : string) : list ascii := list_ascii_of_string s.
Definition text (l : list ascii) : string := string_of_list_ascii l.

(** One-byte white space of [str.isspace]: U+0009..U+000D, U+001C..U+001F
    and U+0020. *)
Definition space1 (c : ascii) : bool :=
  let n := code c in
  ((9 <=? n) && (n <=? 13) || (28 <=? n) && (n <=? 32))%N.

(** Two-byte white space: U+0085 and U+00A0 (C2 85, C2 A0). *)
Definition space2 (c1 c2 : ascii) : bool :=
  ((code c1 =? 194) && ((code c2 =? 133) || (code c2 =? 160)))%N.

(** Three-byte white space: U+1680, U+2000..U+200A, U+2028, U+2029,
    U+202F, U+205F and U+3000. *)
Definition space3 (c1 c2 c3 : ascii) : bool :=
  let '(a, b, c) := (code c1, code c2, code c3) in
  ((a =? 225) && (b =? 154) && (c =? 128)
   || (a =? 226) && (b =? 128)
      && ((128 <=? c) && (c <=? 138) || (c =? 168) || (c =? 169) || (c =? 175))
   || (a =? 226) && (b =? 129) && (c =? 159)
   || (a =? 227) && (b =? 128) && (c =? 128))%N.

(** [lstrip]: drop leading white space.  [fwd] tells the byte order: the
    same scan over the reversed text implements [rstrip]. *)
Fixpoint lstrip_bytes (fwd : bool) (l : list ascii) : list ascii :=
  match l with
  | [] => []
  | c1 :: t1 =>
      if space1 c1 then lstrip_bytes fwd t1 else
      match t1 with
      | [] => l
      | c2 :: t2 =>
          if (if fwd then space2 c1 c2 else space2 c2 c1)
          then lstrip_bytes fwd t2 else
          match t2 with
          | [] => l
          | c3 :: t3 =>
              if (if fwd then space3 c1 c2 c3 else space3 c3 c2 c1)
              then lstrip_bytes fwd t3 else l
          end
      end
  end.

Definition strip_bytes (l : list ascii) : list ascii :=
  rev (lstrip_bytes false (rev (lstrip_bytes true l))).

(** [s.strip()]. *)
Definition strip (s : string) : string := text (strip_bytes (chars s)).

(** [s.find(c)] for a one-character needle: the first index, or [-1]. *)
Fixpoint find_from (c : ascii) (l : list ascii) (i : Z) : Z :=
  match l with
  | [] => -1
  | x :: l' => if Ascii.eqb x c then i else find_from c l' (i + 1)
  end.
Definition find (c : ascii) (s : string) : Z := find_from c (chars s) 0.

(** [s.rfind(c)]: the last index, or [-1]. *)
Fixpoint rfind_from (c : ascii) (l : list ascii) (i : Z) (last : Z) : Z :=
  match l with
  | [] => last
  | x :: l' => rfind_from c l' (i + 1) (if Ascii.eqb x c then i else last)
  end.
Definition rfind (c : ascii) (s : string) : Z := rfind_from c (chars s) 0 (-1).

(** [s[a:b]] for indices that are not negative (the only use below). *)
Definition slice (s : string) (a b : Z) : string :=
  text (take (Z.to_nat (b - a)) (drop (Z.to_nat a) (chars s))).

(** ** Floats *)

Definition prec : Z := 53.
Definition emax : Z := 1024.
Definition float : Type := spec_float.

(** [float(z)] for an [int]. *)
Definition float_of_int (z : Z) : float := binary_normalize prec emax z 0 false.

(** The correctly rounded value of [m * 10^e] with sign [neg], as
    [float()] computes it from a decimal literal. *)
Definition float_of_decimal (neg : bool) (m : Z) (e : Z) : float :=
  match m with
  | Z0 => S754_zero neg
  | Zneg _ => S754_nan
  | Zpos p =>
      if 0 <=? e then binary_round prec emax neg (Pos.mul p (Z.to_pos (10 ^ e))) 0
      else SFdiv prec emax (S754_finite neg p 0)
                           (S754_finite false (Z.to_pos (10 ^ (- e))) 0)
  end.

Definition fleb (x y : float) : bool := SFleb x y.
Definition fmul (x y : float) : float := SFmul prec emax x y.

(** [a / b] on two non-negative [int]s, [b] positive: the correctly
    rounded quotient. *)
Definition int_truediv (a b : Z) : float :=
  match a, b with
  | Z0, Zpos _ => S754_zero false
  | Zpos p, Zpos r => SFdiv prec emax (S754_finite false p 0) (S754_finite false r 0)
  | _, _ => S754_nan
  end.

(** ** tenacity's retry

    [@retry(stop=stop_after_attempt(n))] calls the function again each
    time it raises, at most [n] times in all, and raises [RetryError]
    once the attempts are used up.  A call that returns ends the loop.
    The waits between attempts take time and change nothing else.
    [body k] is the [k]-th attempt; the result carries the number of
    attempts made. *)
Fixpoint retry_from {A} (remaining : nat) (k : nat) (last : exn)
    (body : nat -> res A) : res A * nat :=
  match remaining with
  | O => (Raise (RetryError last), k)
  | S r =>
      match body k with
      | Ret a => (Ret a, S k)
      | Raise e => retry_from r (S k) e body
      end
  end.

(** With [stop_after_attempt(n)] the first attempt is always made. *)
Definition retry {A} (attempts : nat) (body : nat -> res A) : res A * nat :=
  match body O with
  | Ret a => (Ret a, 1%nat)
  | Raise e => retry_from (Nat.pred attempts) 1%nat e body
  end.

End Py.

(* ================================================================== *)
(** * The JSON decoder *)
(* ================================================================== *)

(** [json.loads] belongs to the Python standard library.  The decoder
    below follows its grammar and its results: objects become [dict]s
    (a later key replaces an earlier one), numbers without fraction and
    exponent become [int]s, the others [float]s, and the literals [NaN],
    [Infinity] and [-Infinity] are accepted.  Every failure is an
    exception. *)
Module Json.
Import Py.

Inductive json : Type :=
| JNull
| JBool (b : bool)
| JInt (z : Z)
| JFloat (f : float)
| JString (s : string)
| JArray (l : list json)
| JObject (m : gmap string json).

Definition err {A} (msg : string) : res A := Raise (JSONDecodeError msg).

Definition is_ws (c : ascii) : bool :=
  let n := code c in ((n =? 32) || (n =? 9) || (n =? 10) || (n =? 13))%N.

Fixpoint skip_ws (l : list ascii) : list ascii :=
  match l with
  | c :: l' => if is_ws c then skip_ws l' else l
  | [] => []
  end.

Definition is_digit (c : ascii) : bool :=
  let n := code c in ((48 <=? n) && (n <=? 57))%N.

Definition digit_val (c : ascii) : Z := Z.of_N (code c) - 48.

Fixpoint span_digits (l : list ascii) : list ascii * list ascii :=
  match l with
  | c :: l' =>
      if is_digit c then let '(d, r) := span_digits l' in (c :: d, r)
      else ([], l)
  | [] => ([], [])
  end.

Definition int_of_digits (d : list ascii) : Z :=
  fold_left (fun acc c => 10 * acc + digit_val c) d 0.

Definition hex_val (c : ascii) : option N :=
  let n := code c in
  if ((48 <=? n) && (n <=? 57))%N then Some (n - 48)%N
  else if ((97 <=? n) && (n <=? 102))%N then Some (n - 87)%N
  else if ((65 <=? n) && (n <=? 70))%N then Some (n - 55)%N
  else None.

(** The UTF-8 bytes of a code point. *)
Definition utf8 (cp : N) : list ascii :=
  (if cp <? 128 then [chr cp]
   else if cp <? 2048 then
     [chr (192 + cp / 64); chr (128 + cp mod 64)]
   else if cp <? 65536 then
     [chr (224 + cp / 4096); chr (128 + (cp / 64) mod 64); chr (128 + cp mod 64)]
   else
     [chr (240 + cp / 262144); chr (128 + (cp / 4096) mod 64);
      chr (128 + (cp / 64) mod 64); chr (128 + cp mod 64)])%N.

Definition is_high (cp : N) : bool := ((55296 <=? cp) && (cp <=? 56319))%N.
Definition is_low (cp : N) : bool := ((56320 <=? cp) && (cp <=? 57343))%N.

(** The scanner of a string literal, after the opening quote. *)
Inductive sstate : Type :=
| SNormal
| SEsc
| SHex (todo : nat) (val : N) (pending : option N)
| SHigh (hs : N)
| SHighEsc (hs : N).

(** [out] holds the decoded bytes, last byte first. *)
Definition emit (cp : N) (out : list ascii) : list ascii := rev (utf8 cp) ++ out.

Definition escape_char (c : ascii) : option ascii :=
  let n := code c in
  (if n =? 34 then Some c            (* quote *)
   else if n =? 92 then Some c       (* backslash *)
   else if n =? 47 then Some c       (* slash *)
   else if n =? 98 then Some (chr 8)
   else if n =? 102 then Some (chr 12)
   else if n =? 110 then Some (chr 10)
   else if n =? 114 then Some (chr 13)
   else if n =? 116 then Some (chr 9)
   else None)%N.

Fixpoint scanstring (st : sstate) (out : list ascii) (l : list ascii)
  : res (string * list ascii) :=
  match l with
  | [] => err "Unterminated string starting at"
  | c :: r =>
      let n := code c in
      let normal (out : list ascii) :=
        if (n =? 34)%N then Ret (text (rev out), r)
        else if (n =? 92)%N then scanstring SEsc out r
        else if (n <? 32)%N then err "Invalid control character at"
        else scanstring SNormal (c :: out) r in
      let escaped (out : list ascii) :=
        if (n =? 117)%N then scanstring (SHex 4 0%N None) out r
        else match escape_char c with
             | Some x => scanstring SNormal (x :: out) r
             | None => err "Invalid \escape"
             end in
      match st with
      | SNormal => normal out
      | SEsc => escaped out
      | SHex todo val pending =>
          match hex_val c with
          | None => err "Invalid \uXXXX escape"
          | Some h =>
              let v := (16 * val + h)%N in
              match todo with
              | S (S k) => scanstring (SHex (S k) v pending) out r
              | _ =>
                  match pending with
                  | Some hs =>
                      if is_low v
                      then scanstring SNormal
                             (emit (65536 + (hs - 55296) * 1024 + (v - 56320))%N out) r
                      else if is_high v then scanstring (SHigh v) (emit hs out) r
                      else scanstring SNormal (emit v (emit hs out)) r
                  | None =>
                      if is_high v then scanstring (SHigh v) out r
                      else scanstring SNormal (emit v out) r
                  end
              end
          end
      | SHigh hs =>
          if (n =? 92)%N then scanstring (SHighEsc hs) out r
          else normal (emit hs out)
      | SHighEsc hs =>
          if (n =? 117)%N then scanstring (SHex 4 0%N (Some hs)) out r
          else escaped (emit hs out)
      end
  end.

(** [int()] refuses literals of more than 4300 digits. *)
Definition max_str_digits : nat := 4300.

(** The number at the head of [l], if one starts there: an optional
    minus sign; then a single zero, or a digit from 1 to 9 and any
    digits; then, optionally, a point and one digit or more; then,
    optionally, e or E, an optional sign and one digit or more.  A
    point or an exponent mark that no digit follows is left unread. *)
Definition match_number (l : list ascii) : option (res json * list ascii) :=
  let '(neg, l1) :=
    match l with
    | c :: r => if (code c =? 45)%N then (true, r) else (false, l)
    | [] => (false, l)
    end in
  let ipart :=
    match l1 with
    | c :: r =>
        if (code c =? 48)%N then Some ([c], r)
        else if is_digit c then Some (span_digits l1)
        else None
    | [] => None
    end in
  match ipart with
  | None => None
  | Some (idig, l2) =>
      let '(frac, l3) :=
        match l2 with
        | c :: r =>
            if (code c =? 46)%N then
              match span_digits r with
              | ([], _) => (None, l2)
              | (d, r') => (Some d, r')
              end
            else (None, l2)
        | [] => (None, l2)
        end in
      let '(exp, l4) :=
        match l3 with
        | c :: r =>
            if ((code c =? 101) || (code c =? 69))%N then
              let '(eneg, r1) :=
                match r with
                | s :: r' =>
                    if (code s =? 45)%N then (true, r')
                    else if (code s =? 43)%N then (false, r')
                    else (false, r)
                | [] => (false, r)
                end in
              match span_digits r1 with
              | ([], _) => (None, l3)
              | (d, r') =>
                  (Some (if eneg then - int_of_digits d else int_of_digits d), r')
              end
            else (None, l3)
        | [] => (None, l3)
        end in
      match frac, exp with
      | None, None =>
          if (max_str_digits <? length idig)%nat
          then Some (Raise (ValueError "Exceeds the limit for integer string conversion"), l4)
          else Some (Ret (JInt (if neg then - int_of_digits idig else int_of_digits idig)), l4)
      | _, _ =>
          let fd := default [] frac in
          let e := default 0 exp - Z.of_nat (length fd) in
          Some (Ret (JFloat (float_of_decimal neg (int_of_digits (idig ++ fd)) e)), l4)
      end
  end.

(** [l] starts with the characters of [w]: the rest after them. *)
Fixpoint strip_prefix (w l : list ascii) : option (list ascii) :=
  match w, l with
  | [], _ => Some l
  | a :: w', b :: l' => if Ascii.eqb a b then strip_prefix w' l' else None
  | _ :: _, [] => None
  end.

Definition literal (l : list ascii) : option (json * list ascii) :=
  let try (w : string) (v : json) := (fun r => (v, r)) <$> strip_prefix (chars w) l in
  match try "null" JNull with Some x => Some x | None =>
  match try "true" (JBool true) with Some x => Some x | None =>
  match try "false" (JBool false) with Some x => Some x | None =>
  match try "NaN" (JFloat S754_nan) with Some x => Some x | None =>
  match try "Infinity" (JFloat (S754_infinity false)) with Some x => Some x | None =>
  try "-Infinity" (JFloat (S754_infinity true))
  end end end end end.

(** One value at the head of [l]; [members] and [elements] read the
    inside of an object and of an array.  [fuel] bounds the depth of
    the calls; [loads] gives twice the length of the text and two more,
    which is never used up (lemma [loads_fuel]). *)
Fixpoint scan_once (fuel : nat) (l : list ascii) : res (json * list ascii) :=
  match fuel with
  | O => Raise RecursionError
  | S f =>
      match l with
      | [] => err "Expecting value"
      | c :: r =>
          let n := code c in
          if (n =? 34)%N then
            res_bind (scanstring SNormal [] r) (fun '(s, r') => Ret (JString s, r'))
          else if (n =? 123)%N then
            match skip_ws r with
            | c' :: r' =>
                if (code c' =? 125)%N then Ret (JObject ∅, r')
                else members f (c' :: r') ∅
            | [] => err "Expecting property name enclosed in double quotes"
            end
          else if (n =? 91)%N then
            match skip_ws r with
            | c' :: r' =>
                if (code c' =? 93)%N then Ret (JArray [], r')
                else elements f (c' :: r') []
            | [] => err "Expecting value"
            end
          else
            match literal l with
            | Some x => Ret x
            | None =>
                match match_number l with
                | Some (v, r') => res_bind v (fun j => Ret (j, r'))
                | None => err "Expecting value"
                end
            end
      end
  end
with members (fuel : nat) (l : list ascii) (acc : gmap string json)
  : res (json * list ascii) :=
  match fuel with
  | O => Raise RecursionError
  | S f =>
      match l with
      | c :: r =>
          if negb (code c =? 34)%N
          then err "Expecting property name enclosed in double quotes"
          else
            res_bind (scanstring SNormal [] r) (fun '(k, r1) =>
            match skip_ws r1 with
            | c1 :: r2 =>
                if negb (code c1 =? 58)%N then err "Expecting ':' delimiter"
                else
                  res_bind (scan_once f (skip_ws r2)) (fun '(v, r3) =>
                  let acc' := <[k := v]> acc in
                  match skip_ws r3 with
                  | c2 :: r4 =>
                      if (code c2 =? 125)%N then Ret (JObject acc', r4)
                      else if (code c2 =? 44)%N then members f (skip_ws r4) acc'
                      else err "Expecting ',' delimiter"
                  | [] => err "Expecting ',' delimiter"
                  end)
            | [] => err "Expecting ':' delimiter"
            end)
      | [] => err "Expecting property name enclosed in double quotes"
      end
  end
with elements (fuel : nat) (l : list ascii) (acc : list json)
  : res (json * list ascii) :=
  match fuel with
  | O => Raise RecursionError
  | S f =>
      res_bind (scan_once f l) (fun '(v, r) =>
      match skip_ws r with
      | c :: r' =>
          if (code c =? 93)%N then Ret (JArray (rev (v :: acc)), r')
          else if (code c =? 44)%N then elements f (skip_ws r') (v :: acc)
          else err "Expecting ',' delimiter"
      | [] => err "Expecting ',' delimiter"
      end)
  end.

(** [json.loads(s)]: one value, white space around it, nothing else. *)
Definition loads (s : string) : res json :=
  let l := skip_ws (chars s) in
  res_bind (scan_once (S (S (2 * length l))) l) (fun '(v, r) =>
  match skip_ws r with
  | [] => Ret v
  | _ :: _ => err "Extra data"
  end).

(** [key in d] and [d.get(key, default)]. *)
Definition contains (d : gmap string json) (k : string) : bool :=
  bool_decide (is_Some (d !! k)).
Definition get (d : gmap string json) (k : string) (dflt : json) : json :=
  default dflt (d !! k).

End Json.

(* ================================================================== *)
(** * src/models.py *)
(* ================================================================== *)

Module Models.
Import Py Json.

(** Modelled from the spec: [src/models.py] is not among the sources.
    The enumeration of the three remediation categories, with the values
    the tests read back ([tests/test_models.py], [TestActionType]). *)
Inductive ActionType : Type := RE_HIT | BACKEND | CODE.

(** Modelled from the spec: the [value] of each member, absent with
    [src/models.py]; the strings are those of the spec and the tests. *)
Definition value (a : ActionType) : string :=
  match a with
  | RE_HIT => "Re-hit"
  | BACKEND => "Backend"
  | CODE => "Code"
  end.

(** [[e.value for e in ActionType]]. *)
Definition action_values : list string := map value [RE_HIT; BACKEND; CODE].

(** Modelled from the spec: [ActionType(s)], absent with
    [src/models.py]: the member whose value is [s], [ValueError] when
    there is none. *)
Definition ActionType_of (s : string) : res ActionType :=
  if String.eqb s "Re-hit" then Ret RE_HIT
  else if String.eqb s "Backend" then Ret BACKEND
  else if String.eqb s "Code" then Ret CODE
  else Raise (ValueError (s ++ " is not a valid ActionType")).

(** Modelled from the spec: the message as fetched
    (message_id, subject, sender, body, received_date, labels). *)
Record EmailData : Type := {
  message_id : string;
  subject : string;
  sender : string;
  body : string;
  received_date : Z;
  labels : list string;
}.

(** Modelled from the spec: the classifier's verdict
    (action, reason, confidence or absent). *)
Record LLMAnalysis : Type := {
  action : ActionType;
  reason : string;
  confidence : option float;
}.

(** The default the parser passes for a missing confidence: [0.8]. *)
Definition conf_default : float := Eval vm_compute in float_of_decimal false 8 (-1).

(** Modelled from the spec: the bound on a confidence, absent with
    [src/models.py]: [0.0 <= f <= 1.0]. *)
Definition in_unit_interval (f : float) : bool :=
  fleb (S754_zero false) f && fleb f (float_of_int 1).

(** Modelled from the spec: the validation [LLMAnalysis(...)] performs
    on the values the parser passes.  The spec gives the invariant
    (action one of the three; reason a string that is not empty and not
    white space only; confidence in [0.0, 1.0] or absent) and the tests
    show that a violation raises [ValueError].  A number is accepted as
    a confidence when it lies in the interval, [None] as an absent one. *)
Definition LLMAnalysis_new (a : ActionType) (reason_v confidence_v : json)
  : res LLMAnalysis :=
  match reason_v with
  | JString r =>
      if String.eqb (strip r) EmptyString
      then Raise (ValueError "Reason cannot be empty")
      else
        let ok c := Ret {| action := a; reason := r; confidence := c |} in
        let range f :=
          if in_unit_interval f then ok (Some f)
          else Raise (ValueError "Confidence must be between 0.0 and 1.0") in
        match confidence_v with
        | JNull => ok None
        | JFloat f => range f
        | JInt z => range (float_of_int z)
        | _ => Raise (ValueError "Input should be a valid number")
        end
  | _ => Raise (ValueError "Input should be a valid string")
  end.

(** Modelled from the spec: the notification handed to the sender
    (subject, body, recipient, action_type, original_alert_subject). *)
Record SummaryEmail : Type := {
  se_subject : string;
  se_body : string;
  recipient : string;
  action_type : ActionType;
  original_alert_subject : string;
}.

(** Modelled from the spec: one row of the audit log (id, generated;
    original_message_id; original_subject; original_sender;
    processed_at; action_taken; reason; sent_to_team; success;
    error_message, optional). *)
Record ProcessedEmail : Type := {
  id : string;
  original_message_id : string;
  original_subject : string;
  original_sender : string;
  processed_at : Z;
  action_taken : ActionType;
  pe_reason : string;
  sent_to_team : string;
  success : bool;
  error_message : option string;
}.

End Models.

(* ================================================================== *)
(** * src/config.py *)
(* ================================================================== *)

Module Config.
Import Models.

Record Config : Type := {
  backend_team_email : string;
  code_team_email : string;
  rehit_team_email : string;
  max_emails_per_batch : Z;
  retry_attempts : nat;
}.

Definition get_team_email (c : Config) (action : string) : string :=
  if String.eqb action "Re-hit" then rehit_team_email c
  else if String.eqb action "Backend" then backend_team_email c
  else if String.eqb action "Code" then code_team_email c
  else backend_team_email c.

End Config.

(* ================================================================== *)
(** * The services around the package *)
(* ================================================================== *)

(** The mailbox, the classifier, the mail transport, the clock and the
    identifier source answer from outside the program.  [Env] fixes
    their answers: the [n]-th interaction of a run reads the answer at
    index [n].  [World] is what a run changes: the audit log and the
    interactions made so far.  The file that holds the log is taken to
    exist with its header row (the constructor of the database writes
    it) and to be readable and writable. *)
Module Services.
Import Py Models.

Record Env : Type := {
  config : Config.Config;
  (** [str(d)] for a [datetime]. *)
  datetime_str : Z -> string;
  (** [datetime.now()]. *)
  clock : nat -> Z;
  (** the generated [id] of a [ProcessedEmail]. *)
  fresh_id : nat -> string;
  (** [self.model.generate_content(prompt)], then [response.text]. *)
  generate_content : nat -> string -> res string;
  (** Gmail: list the unread messages (at most [max]) and fetch each. *)
  list_unread : nat -> Z -> res (list EmailData);
  (** Gmail: remove the UNREAD label. *)
  modify_labels : nat -> string -> res unit;
  (** Gmail or SMTP: hand one message to the transport. *)
  deliver : nat -> SummaryEmail -> res unit;
  (** Gmail: [getProfile], the sender's connection test. *)
  get_profile : nat -> res unit;
  (** Modelled from the spec: the subject and body that
      [SummaryEmail.from_analysis] renders ([src/models.py] is absent). *)
  summary_subject : EmailData -> LLMAnalysis -> string;
  summary_body : EmailData -> LLMAnalysis -> string;
}.

Record World : Type := {
  tick : nat;
  db : list ProcessedEmail;
  (** the messages handed to the transport, oldest first *)
  outbox : list SummaryEmail;
  (** the message ids [mark_as_read] was called with, oldest first *)
  read_marks : list string;
}.

Definition advance (n : nat) (w : World) : World :=
  {| tick := (tick w + n)%nat; db := db w; outbox := outbox w; read_marks := read_marks w |}.

Definition set_db (d : list ProcessedEmail) (w : World) : World :=
  {| tick := tick w; db := d; outbox := outbox w; read_marks := read_marks w |}.

(** [n] attempts to hand [s] to the transport. *)
Definition push_outbox (n : nat) (s : SummaryEmail) (w : World) : World :=
  {| tick := tick w; db := db w; outbox := outbox w ++ replicate n s;
     read_marks := read_marks w |}.

Definition push_read_mark (m : string) (w : World) : World :=
  {| tick := tick w; db := db w; outbox := outbox w; read_marks := read_marks w ++ [m] |}.

(** [datetime.now()]. *)
Definition now (env : Env) (w : World) : Z * World := (clock env (tick w), advance 1 w).

End Services.

(* ================================================================== *)
(** * src/llm_analyzer.py *)
(* ================================================================== *)

Module LlmAnalyzer.
Import Py Json Models Services.

Definition _create_analysis_prompt (env : Env) (email_data : EmailData) : string :=
  nl ++
  "You are an expert system administrator analyzing alert emails to determine the appropriate action." ++ nl ++
  nl ++
  "Please analyze the following alert email and determine what action should be taken:" ++ nl ++
  nl ++
  "EMAIL DETAILS:" ++ nl ++
  "Subject: " ++ subject email_data ++ nl ++
  "Sender: " ++ sender email_data ++ nl ++
  "Received: " ++ datetime_str env (received_date email_data) ++ nl ++
  nl ++
  "EMAIL BODY:" ++ nl ++
  body email_data ++ nl ++
  nl ++
  "INSTRUCTIONS:" ++ nl ++
  "Based on the alert content, determine ONE of these three actions:" ++ nl ++
  nl ++
  "1. " ++ q "Re-hit" ++ " - If this appears to be a temporary issue that can be resolved by retrying the process" ++ nl ++
  "   Examples: timeout errors, temporary network issues, rate limiting, temporary service unavailability" ++ nl ++
  nl ++
  "2. " ++ q "Backend" ++ " - If this appears to be a backend infrastructure or configuration issue" ++ nl ++
  "   Examples: database connection issues, server errors, service configuration problems, resource exhaustion" ++ nl ++
  nl ++
  "3. " ++ q "Code" ++ " - If this appears to be a software bug or code-related issue that requires development intervention" ++ nl ++
  "   Examples: application errors, logic bugs, null pointer exceptions, syntax errors, failed deployments" ++ nl ++
  nl ++
  "RESPONSE FORMAT:" ++ nl ++
  "You must respond with a valid JSON object in exactly this format:" ++ nl ++
  "{" ++ nl ++
  "    " ++ q "action" ++ ": " ++ q "Re-hit" ++ " | " ++ q "Backend" ++ " | " ++ q "Code" ++ "," ++ nl ++
  "    " ++ q "reason" ++ ": " ++ q "Detailed explanation of why this action was chosen (2-3 sentences)" ++ "," ++ nl ++
  "    " ++ q "confidence" ++ ": 0.85" ++ nl ++
  "}" ++ nl ++
  nl ++
  "IMPORTANT:" ++ nl ++
  "- Only respond with the JSON object, no additional text" ++ nl ++
  "- The action must be exactly one of: " ++ q "Re-hit" ++ ", " ++ q "Backend" ++ ", or " ++ q "Code" ++ nl ++
  "- The reason should be clear and actionable" ++ nl ++
  "- Confidence should be between 0.0 and 1.0" ++ nl ++
  "- Focus on the technical indicators in the alert to make your decision" ++ nl ++
  nl ++
  "Analyze the alert now:" ++ nl.

(** [action not in [e.value for e in ActionType]]: equality of the
    decoded value with one of the three strings. *)
Definition action_is_valid (a : json) : bool :=
  match a with
  | JString s => existsb (String.eqb s) action_values
  | _ => false
  end.

(** The checks of [_parse_gemini_response] on the decoded response, and
    the construction of the result. *)
Definition validate_response (parsed_response : json) : res (option LLMAnalysis) :=
  match parsed_response with
  | JObject d =>
      if negb (contains d "action") || negb (contains d "reason") then Ret None
      else
        let a := get d "action" JNull in
        if negb (action_is_valid a) then Ret None
        else
          match a with
          | JString s =>
              res_bind (ActionType_of s) (fun at_ =>
              res_bind (LLMAnalysis_new at_ (get d "reason" JNull)
                          (get d "confidence" (JFloat conf_default)))
                       (fun analysis => Ret (Some analysis)))
          | _ => Raise (ValueError "not a valid ActionType")
          end
  | _ =>
      (* A text that opens with a brace decodes to a dict or not at all
         (lemma [loads_brace_object]); on any other value the membership
         test or the indexing that follows raises. *)
      Raise (TypeError "response is not a JSON object")
  end.

(** The body of [_parse_gemini_response], inside its [try]. *)
Definition parse_body (response_text : string) : res (option LLMAnalysis) :=
  let response_text := strip response_text in
  let json_start := find "{" response_text in
  let json_end := rfind "}" response_text + 1 in
  if (json_start =? -1) || (json_end =? 0) then Ret None
  else
    let json_text := slice response_text json_start json_end in
    res_bind (loads json_text) validate_response.

(** [except json.JSONDecodeError] and [except Exception] both log and
    return [None]. *)
Definition _parse_gemini_response (response_text : string) : res (option LLMAnalysis) :=
  Ret (try_except (parse_body response_text) (fun _ => None)).

(** The decorated function: the body catches every exception and
    returns [None], and [retry] wraps that body. *)
Definition analyze_email_body (env : Env) (email_data : EmailData) (t : nat)
  : res (option LLMAnalysis) :=
  Ret (try_except
         (let prompt := _create_analysis_prompt env email_data in
          res_bind (generate_content env t prompt) (fun response_text =>
          if String.eqb response_text EmptyString then Ret None
          else _parse_gemini_response response_text))
         (fun _ => None)).

Definition analyze_email (env : Env) (email_data : EmailData) (w : World)
  : res (option LLMAnalysis) * World :=
  let '(r, n) := retry (Config.retry_attempts (config env))
                   (fun k => analyze_email_body env email_data (tick w + k)) in
  (r, advance n w).

End LlmAnalyzer.

(* ================================================================== *)
(** * src/database.py *)
(* ================================================================== *)

(** The audit log is a CSV file that [csv.writer] appends to and
    [pandas.read_csv] reads back whole.  A row of the frame is the
    [ProcessedEmail] that was written.  Two columns are typed by what
    the package writes: [success] holds [True] or [False] and is read
    as a boolean column, [processed_at] holds ISO timestamps and is
    converted by [pd.to_datetime].  The column [original_message_id]
    holds arbitrary text, and its type is inferred by [read_csv]: that
    inference is modelled in [read_id_column].  Timestamps and
    durations are unbounded integers: the range of the 64-bit clock of
    pandas is not modelled. *)
Module Database.
Import Py Models Services.
Local Open Scope list_scope.

Definition DataFrame : Type := list ProcessedEmail.

(** One day in microseconds: [pd.Timedelta(days=1)]. *)
Definition day : Z := 86400000000.

(** ** What [read_csv] makes of a text column *)

(** The strings [read_csv] reads as a missing value. *)
Definition na_values : list string :=
  [ EmptyString; "#N/A"; "#N/A N/A"; "#NA"; "-1.#IND"; "-1.#QNAN"; "-NaN"; "-nan";
    "1.#IND"; "1.#QNAN"; "<NA>"; "N/A"; "NA"; "NULL"; "NaN"; "None"; "n/a";
    "nan"; "null" ].

Definition is_na (s : string) : bool := existsb (String.eqb s) na_values.

(** The strings [read_csv] reads as a boolean. *)
Definition is_bool_token (s : string) : bool :=
  existsb (String.eqb s) ["True"; "TRUE"; "true"; "False"; "FALSE"; "false"].

(** A plain decimal numeral: an optional sign, digits with at most one
    point among them (one digit at least), and optionally an exponent
    ([e] or [E], an optional sign, one digit or more).  [read_csv]
    reads such a cell as a number.  (It reads a few more spellings as
    numbers, infinities among them; they are left out here.) *)
Definition is_numeral (s : string) : bool :=
  let l := chars s in
  let l := match l with
           | c :: r => if ((code c =? 43) || (code c =? 45))%N then r else l
           | [] => l
           end in
  let '(d1, r1) := Json.span_digits l in
  let '(d2, r2) :=
    match r1 with
    | c :: r => if (code c =? 46)%N then Json.span_digits r else ([], r1)
    | [] => ([], r1)
    end in
  match (d1 ++ d2)%list with
  | [] => false
  | _ :: _ =>
      match r2 with
      | [] => true
      | c :: r =>
          if ((code c =? 101) || (code c =? 69))%N then
            let r := match r with
                     | x :: r' => if ((code x =? 43) || (code x =? 45))%N then r' else r
                     | [] => r
                     end in
            match Json.span_digits r with
            | (_ :: _, []) => true
            | _ => false
            end
          else false
      end
  end.

(** A value of [df[col].values] for a text column. *)
Inductive cell : Type :=
| CStr (s : string)   (** a Python [str] *)
| CNum                (** an integer or a float *)
| CBool               (** a boolean *)
| CNaN.               (** a missing value *)

(** The column as [read_csv] returns it.  When every cell is missing or
    a numeral the column is numeric; when every cell is missing or a
    boolean word the column holds booleans; otherwise it keeps the
    text of each cell that is not missing. *)
Definition read_id_column (col : list string) : list cell :=
  if forallb (fun s => is_na s || is_numeral s) col then
    map (fun s => if is_na s then CNaN else CNum) col
  else if forallb (fun s => is_na s || is_bool_token s) col then
    map (fun s => if is_na s then CNaN else CBool) col
  else map (fun s => if is_na s then CNaN else CStr s) col.

(** [x in values] for a [str] [x]: equality with some element.  A
    number, a boolean and NaN are equal to no [str]. *)
Definition str_in_values (x : string) (values : list cell) : bool :=
  existsb (fun c => match c with CStr s => String.eqb x s | _ => false end) values.

(** ** The operations *)

(** The append succeeds on a writable file; the [except] branch, which
    answers [False] to an I/O error, is not reached. *)
Definition save_processed_email (processed_email : ProcessedEmail) (df : DataFrame)
  : bool * DataFrame :=
  (true, df ++ [processed_email]).

Fixpoint save_batch_processed_emails (l : list ProcessedEmail) (df : DataFrame)
  : Z * DataFrame :=
  match l with
  | [] => (0, df)
  | p :: l' =>
      let '(ok, df1) := save_processed_email p df in
      let '(n, df2) := save_batch_processed_emails l' df1 in
      ((if ok then 1 else 0) + n, df2)
  end.

(** [df.tail(n)]: the last [n] rows; for a negative [n], all rows but
    the first [-n]. *)
Definition tail (n : Z) (df : DataFrame) : DataFrame :=
  if 0 <=? n then drop (length df - Z.to_nat n) df
  else drop (Z.to_nat (- n)) df.

(** Each row that is kept is rebuilt field by field into a
    [ProcessedEmail]; the result lists the rows of the frame. *)
Definition get_processed_emails (limit : option Z) (action_filter : option string)
    (date_from date_to : option Z) (df : DataFrame) : list ProcessedEmail :=
  match df with
  | [] => []
  | _ :: _ =>
      let df :=
        match action_filter with
        | Some a =>
            if String.eqb a EmptyString then df
            else filter (fun r => value (action_taken r) = a) df
        | None => df
        end in
      let df :=
        match date_from with
        | Some d => filter (fun r => d <= processed_at r) df
        | None => df
        end in
      let df :=
        match date_to with
        | Some d => filter (fun r => processed_at r <= d) df
        | None => df
        end in
      match limit with
      | Some n => if n =? 0 then df else tail n df
      | None => df
      end
  end.

(** [series.value_counts().to_dict()]: how often each value occurs;
    missing values are not counted. *)
Definition value_counts (col : list string) : gmap string Z :=
  fold_left
    (fun m s => if is_na s then m else <[s := default 0 (m !! s) + 1]> m)
    col ∅.

Record Stats : Type := {
  total_processed : Z;
  successful : Z;
  failed : Z;
  success_rate : float;
  action_breakdown : gmap string Z;
  team_distribution : gmap string Z;
  recent_24h : Z;
}.

(** [None] stands for the empty dict. *)
Definition get_processing_stats (now : Z) (df : DataFrame) : option Stats :=
  match df with
  | [] => None
  | _ :: _ =>
      let total := Z.of_nat (length df) in
      let successful := Z.of_nat (length (filter (fun r => success r = true) df)) in
      let failed := Z.of_nat (length (filter (fun r => success r = false) df)) in
      let recent_cutoff := now - day in
      Some {|
        total_processed := total;
        successful := successful;
        failed := failed;
        success_rate :=
          if 0 <? total then fmul (int_truediv successful total) (float_of_int 100)
          else float_of_int 0;
        action_breakdown := value_counts (map (fun r => value (action_taken r)) df);
        team_distribution := value_counts (map sent_to_team df);
        recent_24h := Z.of_nat (length (filter (fun r => recent_cutoff <= processed_at r) df));
      |}
  end.

Definition check_duplicate (message_id : string) (df : DataFrame) : bool :=
  match df with
  | [] => false
  | _ :: _ => str_in_values message_id (read_id_column (map original_message_id df))
  end.

(** [cleanup_old_records]: the number of rows removed and the frame
    written back. *)
Definition cleanup_old_records (now : Z) (days_to_keep : Z) (df : DataFrame)
  : Z * DataFrame :=
  match df with
  | [] => (0, df)
  | _ :: _ =>
      let cutoff_date := now - days_to_keep * day in
      let initial_count := Z.of_nat (length df) in
      let df_filtered := filter (fun r => cutoff_date <= processed_at r) df in
      (initial_count - Z.of_nat (length df_filtered), df_filtered)
  end.

End Database.

(* ================================================================== *)
(** * src/email_sender.py *)
(* ================================================================== *)

Module EmailSender.
Import Py Models Services.

(** [_send_via_gmail_api] and [_send_via_smtp]: build the message, hand
    it to the transport; any exception is logged and gives [False]. *)
Definition _send_via_transport (env : Env) (t : nat) (summary_email : SummaryEmail) : bool :=
  try_except (res_bind (deliver env t summary_email) (fun _ => Ret true)) (fun _ => false).

(** The decorated [send_summary_email]: the body returns the
    transport's answer and turns an exception into [False]. *)
Definition send_summary_email (env : Env) (summary_email : SummaryEmail) (w : World)
  : res bool * World :=
  let '(r, n) := retry (Config.retry_attempts (config env))
                   (fun k => Ret (_send_via_transport env (tick w + k) summary_email)) in
  (r, push_outbox n summary_email (advance n w)).

Definition error_notification (env : Env) (error_message : string)
    (original_email : EmailData) : SummaryEmail :=
  {| se_subject := "Alert Processing Error - " ++ subject original_email;
     se_body :=
       "An error occurred while processing the following alert email:" ++ nl ++
       nl ++
       "Original Alert Subject: " ++ subject original_email ++ nl ++
       "Original Sender: " ++ sender original_email ++ nl ++
       "Received: " ++ datetime_str env (received_date original_email) ++ nl ++
       "Message ID: " ++ message_id original_email ++ nl ++
       nl ++
       "Error Details:" ++ nl ++
       error_message ++ nl ++
       nl ++
       "Please review the alert manually and take appropriate action." ++ nl ++
       nl ++
       "---" ++ nl ++
       "This error notification was automatically generated by the Alert Email Processor." ++ nl;
     recipient := Config.backend_team_email (config env);
     action_type := BACKEND;
     original_alert_subject := subject original_email |}.

Definition send_error_notification (env : Env) (error_message : string)
    (original_email : EmailData) (w : World) : bool * World :=
  let '(r, w') := send_summary_email env (error_notification env error_message original_email) w in
  (try_except r (fun _ => false), w').

Definition test_connection (env : Env) (w : World) : bool * World :=
  (try_except (res_bind (get_profile env (tick w)) (fun _ => Ret true)) (fun _ => false),
   advance 1 w).

End EmailSender.

(* ================================================================== *)
(** * src/email_reader.py *)
(* ================================================================== *)

Module EmailReader.
Import Py Models Services.

(** The decorated [fetch_unread_emails]: three attempts; the body logs
    an exception and raises it again. *)
Definition fetch_unread_emails (env : Env) (max_results : Z) (w : World)
  : res (list EmailData) * World :=
  let '(r, n) := retry 3 (fun k => list_unread env (tick w + k) max_results) in
  (r, advance n w).

Definition mark_as_read (env : Env) (message_id : string) (w : World) : bool * World :=
  (try_except (res_bind (modify_labels env (tick w) message_id) (fun _ => Ret true))
              (fun _ => false),
   push_read_mark message_id (advance 1 w)).

End EmailReader.

(* ================================================================== *)
(** * src/processor.py *)
(* ================================================================== *)

Module Processor.
Import Py Models Services.

Record Results : Type := {
  processed_count : Z;
  successful_count : Z;
  failed_count : Z;
  skipped_count : Z;
  errors : list string;
  start_time : Z;
  end_time : option Z;
  (** [duration_seconds], counted in microseconds *)
  duration : Z;
}.

(** Modelled from the spec: [ProcessedEmail(...)] fills [id] and
    [processed_at] itself (a generated id, the current time). *)
Definition new_processed_email (env : Env) (w : World)
    (mid subj sndr : string) (a : ActionType) (rsn team : string)
    (ok : bool) (err : option string) : ProcessedEmail * World :=
  ({| id := fresh_id env (tick w);
      original_message_id := mid;
      original_subject := subj;
      original_sender := sndr;
      processed_at := clock env (tick w);
      action_taken := a;
      pe_reason := rsn;
      sent_to_team := team;
      success := ok;
      error_message := err |},
   advance 1 w).

Definition save (p : ProcessedEmail) (w : World) : World :=
  set_db (snd (Database.save_processed_email p (db w))) w.

(** Modelled from the spec: [SummaryEmail.from_analysis]. *)
Definition from_analysis (env : Env) (original_email : EmailData)
    (analysis : LLMAnalysis) (recipient : string) : SummaryEmail :=
  {| se_subject := summary_subject env original_email analysis;
     se_body := summary_body env original_email analysis;
     recipient := recipient;
     action_type := action analysis;
     original_alert_subject := subject original_email |}.

Definition _filter_unprocessed_emails (emails : list EmailData) (w : World)
  : list EmailData :=
  List.filter (fun e => negb (Database.check_duplicate (message_id e) (db w))) emails.

(** The failed record both failure branches of [_process_single_email]
    write before they return [False]. *)
Definition record_failure (env : Env) (email_data : EmailData) (a : ActionType)
    (rsn team error_msg : string) (w : World) : World :=
  let '(rec, w) := new_processed_email env w (message_id email_data) (subject email_data)
                     (sender email_data) a rsn team false (Some error_msg) in
  save rec w.

(** The [except] branch of [_process_single_email]. *)
Definition on_unexpected_error (env : Env) (email_data : EmailData) (e : exn) (w : World)
  : bool * World :=
  let error_msg := "Unexpected error processing email: " ++ exn_str e in
  let '(_, w) := EmailSender.send_error_notification env error_msg email_data w in
  (false, record_failure env email_data BACKEND "Processing error"
            (Config.backend_team_email (config env)) error_msg w).

Definition _process_single_email (env : Env) (email_data : EmailData) (w : World)
  : res bool * World :=
  let '(r, w) := LlmAnalyzer.analyze_email env email_data w in
  match r with
  | Raise e => let '(b, w) := on_unexpected_error env email_data e w in (Ret b, w)
  | Ret None =>
      let error_msg := "LLM analysis failed" in
      let '(_, w) := EmailSender.send_error_notification env error_msg email_data w in
      (Ret false,
       record_failure env email_data BACKEND "LLM analysis failed"
         (Config.backend_team_email (config env)) error_msg w)
  | Ret (Some analysis) =>
      let recipient := Config.get_team_email (config env) (value (action analysis)) in
      let summary_email := from_analysis env email_data analysis recipient in
      let '(sent, w) := EmailSender.send_summary_email env summary_email w in
      match sent with
      | Raise e => let '(b, w) := on_unexpected_error env email_data e w in (Ret b, w)
      | Ret false =>
          (Ret false,
           record_failure env email_data (action analysis) (reason analysis) recipient
             "Failed to send summary email" w)
      | Ret true =>
          let '(rec, w) := new_processed_email env w (message_id email_data)
                             (subject email_data) (sender email_data) (action analysis)
                             (reason analysis) recipient true None in
          (Ret true, save rec w)
      end
  end.

Definition bump_processed (r : Results) : Results :=
  {| processed_count := processed_count r + 1; successful_count := successful_count r;
     failed_count := failed_count r; skipped_count := skipped_count r;
     errors := errors r; start_time := start_time r; end_time := end_time r;
     duration := duration r |}.

Definition bump_successful (r : Results) : Results :=
  {| processed_count := processed_count r; successful_count := successful_count r + 1;
     failed_count := failed_count r; skipped_count := skipped_count r;
     errors := errors r; start_time := start_time r; end_time := end_time r;
     duration := duration r |}.

Definition bump_failed (r : Results) : Results :=
  {| processed_count := processed_count r; successful_count := successful_count r;
     failed_count := failed_count r + 1; skipped_count := skipped_count r;
     errors := errors r; start_time := start_time r; end_time := end_time r;
     duration := duration r |}.

Definition set_skipped (n : Z) (r : Results) : Results :=
  {| processed_count := processed_count r; successful_count := successful_count r;
     failed_count := failed_count r; skipped_count := n;
     errors := errors r; start_time := start_time r; end_time := end_time r;
     duration := duration r |}.

Definition add_error (msg : string) (r : Results) : Results :=
  {| processed_count := processed_count r; successful_count := successful_count r;
     failed_count := failed_count r; skipped_count := skipped_count r;
     errors := errors r ++ [msg]; start_time := start_time r; end_time := end_time r;
     duration := duration r |}.

(** The two lines that close a cycle: [end_time] and the duration. *)
Definition finish (env : Env) (r : Results) (w : World) : Results * World :=
  let '(t, w) := now env w in
  ({| processed_count := processed_count r; successful_count := successful_count r;
      failed_count := failed_count r; skipped_count := skipped_count r;
      errors := errors r; start_time := start_time r; end_time := Some t;
      duration := t - start_time r |}, w).

(** Step 3 of [process_alerts]: the loop over the new emails. *)
Fixpoint process_each (env : Env) (emails : list EmailData) (r : Results) (w : World)
  : Results * World :=
  match emails with
  | [] => (r, w)
  | email_data :: rest =>
      let '(ok, w) := _process_single_email env email_data w in
      match ok with
      | Ret true =>
          let '(_, w) := EmailReader.mark_as_read env (message_id email_data) w in
          process_each env rest (bump_successful (bump_processed r)) w
      | Ret false => process_each env rest (bump_failed (bump_processed r)) w
      | Raise e =>
          let error_msg := "Error processing email " ++ message_id email_data
                           ++ ": " ++ exn_str e in
          process_each env rest (bump_failed (add_error error_msg r)) w
      end
  end.

Definition process_alerts (env : Env) (w : World) : Results * World :=
  let '(start, w) := now env w in
  let results :=
    {| processed_count := 0; successful_count := 0; failed_count := 0;
       skipped_count := 0; errors := []; start_time := start; end_time := None;
       duration := 0 |} in
  let '(fetched, w) :=
    EmailReader.fetch_unread_emails env (Config.max_emails_per_batch (config env)) w in
  match fetched with
  | Raise e =>
      finish env (add_error ("Critical error in alert processing: " ++ exn_str e) results) w
  | Ret [] => finish env results w
  | Ret emails =>
      let emails_to_process := _filter_unprocessed_emails emails w in
      let results :=
        set_skipped (Z.of_nat (length emails) - Z.of_nat (length emails_to_process)) results in
      match emails_to_process with
      | [] => finish env results w
      | _ :: _ =>
          let '(results, w) := process_each env emails_to_process results w in
          finish env results w
      end
  end.

(** [test_connections]: the four flags. *)
Definition test_connections (env : Env) (w : World) : (bool * bool * bool * bool) * World :=
  let '(r, w) := EmailReader.fetch_unread_emails env 1 w in
  let email_reader := negb (raises r) in
  let '(_, w) := now env w in
  let llm_analyzer := true in
  let '(email_sender, w) := EmailSender.test_connection env w in
  let '(t, w) := now env w in
  let stats := Database.get_processing_stats t (db w) in
  let database := true in
  ((email_reader, llm_analyzer, email_sender, database), w).

Definition run_health_check (env : Env) (w : World) : bool * World :=
  let '((a, b, c, d), w) := test_connections env w in
  (a && b && c && d, w).

Definition get_processing_stats (env : Env) (w : World) : option Database.Stats * World :=
  let '(t, w) := now env w in (Database.get_processing_stats t (db w), w).

Definition cleanup_old_records (env : Env) (days_to_keep : Z) (w : World) : Z * World :=
  let '(t, w) := now env w in
  let '(n, d) := Database.cleanup_old_records t days_to_keep (db w) in
  (n, set_db d w).

End Processor.

(* ================================================================== *)
(** * src/scheduler.py and src/main.py *)
(* ================================================================== *)

Module Scheduler.
Import Py Models Services Processor.

(** [run_once]: the boolean it returns, the results of the cycle when
    one was run, and the world it leaves. *)
Definition run_once (env : Env) (w : World) : bool * option Results * World :=
  let '(healthy, w) := run_health_check env w in
  if negb healthy then (false, None, w)
  else
    let '(results, w) := process_alerts env w in
    ((0 <? successful_count results) || (processed_count results =? 0), Some results, w).

End Scheduler.

Module Main.
Import Services.

(** [main] in mode [once], once the scheduler is built: the status
    [sys.exit] is called with. *)
Definition main_once (env : Env) (w : World) : Z * World :=
  let '(success, _, w) := Scheduler.run_once env w in
  (if success then 0 else 1, w).

End Main.

(* ================================================================== *)
(** * The batch operations and the test mode of [main] *)
(* ================================================================== *)

(** [analyze_batch] of [src/llm_analyzer.py] and [send_batch_summaries]
    of [src/email_sender.py]; they stand here because they build on
    [analyze_email], [send_summary_email] and [from_analysis]. *)
Module Batch.
Import Py Models Services.

(** The loop of [analyze_batch]: one entry per email, [None] when the
    analysis raises. *)
Fixpoint analyze_batch_from (env : Env) (emails : list EmailData)
    (results : gmap string (option LLMAnalysis)) (w : World)
  : gmap string (option LLMAnalysis) * World :=
  match emails with
  | [] => (results, w)
  | email_data :: rest =>
      let '(r, w) := LlmAnalyzer.analyze_email env email_data w in
      let analysis := try_except r (fun _ => None) in
      analyze_batch_from env rest (<[message_id email_data := analysis]> results) w
  end.

Definition analyze_batch (env : Env) (emails : list EmailData) (w : World)
  : gmap string (option LLMAnalysis) * World :=
  analyze_batch_from env emails ∅ w.

(** [analyses.get(message_id)], then [if not analysis]: an id without
    entry and an entry that is [None] are the same. *)
Definition analysis_of (analyses : gmap string (option LLMAnalysis)) (mid : string)
  : option LLMAnalysis :=
  default None (analyses !! mid).

(** The summary [send_batch_summaries] builds for an email that has an
    analysis. *)
Definition batch_summary (env : Env) (email_data : EmailData) (analysis : LLMAnalysis)
  : SummaryEmail :=
  Processor.from_analysis env email_data analysis
    (Config.get_team_email (config env) (value (action analysis))).

(** The loop of [send_batch_summaries]. *)
Fixpoint send_batch_from (env : Env) (original_emails : list EmailData)
    (analyses : gmap string (option LLMAnalysis)) (results : gmap string bool) (w : World)
  : gmap string bool * World :=
  match original_emails with
  | [] => (results, w)
  | email_data :: rest =>
      match analysis_of analyses (message_id email_data) with
      | None =>
          send_batch_from env rest analyses (<[message_id email_data := false]> results) w
      | Some analysis =>
          let '(r, w) :=
            EmailSender.send_summary_email env (batch_summary env email_data analysis) w in
          let success := try_except r (fun _ => false) in
          send_batch_from env rest analyses (<[message_id email_data := success]> results) w
      end
  end.

Definition send_batch_summaries (env : Env) (original_emails : list EmailData)
    (analyses : gmap string (option LLMAnalysis)) (w : World) : gmap string bool * World :=
  send_batch_from env original_emails analyses ∅ w.

End Batch.

(** [main] of [src/main.py] in the mode [test]. *)
Module Cli.
Import Py Models Services.

(** Mode [test]: the status is 0 when every connection test passed. *)
Definition main_test (env : Env) (w : World) : Z * World :=
  let '((a, b, c, d), w) := Processor.test_connections env w in
  (if a && b && c && d then 0 else 1, w).

End Cli.

(* ================================================================== *)
(** * Sample data, after tests/conftest.py *)
(* ================================================================== *)

Module Samples.
Import Py Json Models Services.

Definition test_config : Config.Config :=
  {| Config.backend_team_email := "backend@company.com";
     Config.code_team_email := "dev@company.com";
     Config.rehit_team_email := "ops@company.com";
     Config.max_emails_per_batch := 5;
     Config.retry_attempts := 3 |}.

Definition sample_email_data : EmailData :=
  {| message_id := "test_message_123";
     subject := "Alert: Database Connection Failed";
     sender := "monitoring@company.com";
     body := "Database connection to prod-db-01 failed at 2025-09-03 10:30:00. Error: Connection timeout after 30 seconds.";
     received_date := 1756895400000000;
     labels := [] |}.

(** An environment with a working mail transport, built from the
    answers of the classifier and of the mailbox. *)
Definition env_with (llm : nat -> string -> res string)
    (mailbox : nat -> Z -> res (list EmailData)) : Env :=
  {| config := test_config;
     datetime_str := fun _ => "2025-09-03 10:30:00";
     clock := fun t => 1756900000000000 + Z.of_nat t;
     fresh_id := fun t => "id-" ++ String (chr (48 + N.of_nat t mod 10)) EmptyString;
     generate_content := llm;
     list_unread := mailbox;
     modify_labels := fun _ _ => Ret tt;
     deliver := fun _ _ => Ret tt;
     get_profile := fun _ => Ret tt;
     summary_subject := fun _ a => "Alert Analysis - Action Required: " ++ value (action a);
     summary_body := fun e a => subject e ++ nl ++ sender e ++ nl ++ reason a |}.

Definition one_unread : nat -> Z -> res (list EmailData) :=
  fun _ _ => Ret [sample_email_data].

(** The classifier answers with text that holds no JSON. *)
Definition env_unparseable : Env :=
  env_with (fun _ _ => Ret "This is not valid JSON") one_unread.

(** The classifier cannot be reached. *)
Definition env_llm_down : Env :=
  env_with (fun _ _ => Raise (TransportError "503 Service Unavailable")) one_unread.

(** The mailbox answers the health check (the first interaction of
    [run_once]) and fails from then on. *)
Definition env_fetch_fails : Env :=
  env_with (fun _ _ => Ret "This is not valid JSON")
           (fun t _ => if (t =? 0)%nat then Ret []
                       else Raise (TransportError "503 Service Unavailable")).

(** The response of the end-to-end scenario of the specification. *)
Definition response_db_timeout : string :=
  "{" ++ q "action" ++ ":" ++ q "Backend" ++ "," ++ q "reason" ++ ":" ++ q "db timeout"
  ++ "," ++ q "confidence" ++ ":0.85}".

Definition env_db_timeout : Env :=
  env_with (fun _ _ => Ret response_db_timeout) one_unread.

Definition empty_world : World :=
  {| tick := 0; db := []; outbox := []; read_marks := [] |}.

(** The response of [test_parse_gemini_response_success]. *)
Definition response_with_text_around : string :=
  nl ++ "            Some text before" ++ nl ++
  "            {" ++ nl ++
  "                " ++ q "action" ++ ": " ++ q "Code" ++ "," ++ nl ++
  "                " ++ q "reason" ++ ": " ++ q "Application error in user authentication module" ++ "," ++ nl ++
  "                " ++ q "confidence" ++ ": 0.92" ++ nl ++
  "            }" ++ nl ++
  "            Some text after" ++ nl ++ "            ".

(** A response with a valid action and reason and no confidence. *)
Definition response_without_confidence : string :=
  "Here is my analysis: {" ++ q "action" ++ ": " ++ q "Re-hit" ++ ", "
  ++ q "reason" ++ ": " ++ q "Temporary network issue" ++ "}".

Definition response_invalid_action : string :=
  "{" ++ q "action" ++ ": " ++ q "InvalidAction" ++ ", " ++ q "reason" ++ ": "
  ++ q "Some reason" ++ ", " ++ q "confidence" ++ ": 0.85}".

Definition response_blank_reason : string :=
  "{" ++ q "action" ++ ": " ++ q "Code" ++ ", " ++ q "reason" ++ ": " ++ q "   " ++ "}".

Definition response_confidence_too_high : string :=
  "{" ++ q "action" ++ ": " ++ q "Backend" ++ ", " ++ q "reason" ++ ": "
  ++ q "Valid reason" ++ ", " ++ q "confidence" ++ ": 1.5}".

(** A record as [test_database.py] builds them. *)
Definition record (mid : string) (a : ActionType) (at_ : Z) (ok : bool) : ProcessedEmail :=
  {| id := "id-" ++ mid; original_message_id := mid; original_subject := "Test Alert";
     original_sender := "test@example.com"; processed_at := at_; action_taken := a;
     pe_reason := "Backend issue"; sent_to_team := "backend@company.com";
     success := ok; error_message := None |}.

End Samples.

(* ================================================================== *)
(** * The properties, as the specification words them *)
(* ================================================================== *)

Module Properties.
Import Py Json Models Services.

(** The text between the first opening brace and the last closing
    brace, both included; [None] when one of the two is missing. *)
Definition json_slice (response_text : string) : option string :=
  let a := find "{" response_text in
  let b := rfind "}" response_text + 1 in
  if (a =? -1) || (b =? 0) then None else Some (slice response_text a b).

(** The JSON object delimited by the first opening and the last closing
    brace of the response. *)
Definition extracted_object (response_text : string) : option (gmap string json) :=
  match json_slice response_text with
  | Some s => match loads s with Ret (JObject d) => Some d | _ => None end
  | None => None
  end.

(** The number a JSON value gives as a confidence. *)
Definition as_number (v : json) : option float :=
  match v with
  | JFloat f => Some f
  | JInt z => Some (float_of_int z)
  | _ => None
  end.

Definition well_formed (a : LLMAnalysis) : Prop :=
  strip (reason a) <> EmptyString
  /\ match confidence a with
     | None => True
     | Some f => in_unit_interval f = true
     end.

(** The last [n] elements of a list, all of it when it is shorter. *)
Definition lastn {A} (n : nat) (l : list A) : list A := drop (length l - n) l.

(** Specification 7 (a), read for [analyze_email]: an error raised
    while the classifier is queried reaches the caller as an exception
    once the attempts are used up. *)
Definition transport_errors_surface : Prop :=
  forall env email_data w,
    (forall t prompt, exists e, generate_content env t prompt = Raise e) ->
    exists e, fst (LlmAnalyzer.analyze_email env email_data w) = Raise e.

(** Specification 8, statistics: the counts are returned for every
    state of the log. *)
Definition stats_always_returned : Prop :=
  forall now df, exists st,
    Database.get_processing_stats now df = Some st
    /\ Database.successful st + Database.failed st = Database.total_processed st.

(** How a cycle ended, from the results it returns: it failed when it
    recorded an error or when emails failed and none succeeded; it
    succeeded when an email was handled successfully and no error was
    recorded; it was a no-op when there was nothing to process. *)
Definition cycle_failed (r : Processor.Results) : Prop :=
  Processor.errors r <> []
  \/ (Processor.successful_count r = 0 /\ 0 < Processor.failed_count r).

Definition cycle_succeeded (r : Processor.Results) : Prop :=
  Processor.errors r = [] /\ 0 < Processor.successful_count r.

Definition cycle_noop (r : Processor.Results) : Prop :=
  Processor.errors r = [] /\ Processor.processed_count r = 0
  /\ Processor.failed_count r = 0.

(** A byte that white space is made of: a one-byte space, or a byte of
    a longer sequence. *)
Definition blank (c : ascii) : Prop := space1 c = true \/ (128 <= code c)%N.

(** How far a result is from the input, and what it takes to run out
    of fuel. *)
Definition scan_ok (slack : nat) (fuel : nat) (l : list ascii)
    (x : res (json * list ascii)) : Prop :=
  match x with
  | Ret (_, r) => (length r <= length l)%nat
  | Raise e => e = RecursionError -> (fuel <= 2 * length l + slack)%nat
  end.

(** The number of rows with the given outcome. *)
Definition count_success (ok : bool) (rows : list ProcessedEmail) : Z :=
  Z.of_nat (length (List.filter (fun r => Bool.eqb (success r) ok) rows)).

(** The ids of the rows that record a success. *)
Definition success_ids (rows : list ProcessedEmail) : list string :=
  map original_message_id (List.filter success rows).

(** The number of rows with the given action. *)
Definition rows_with_action (a : ActionType) (rows : list ProcessedEmail) : Z :=
  Z.of_nat (length (List.filter
                      (fun r => String.eqb (value a) (value (action_taken r))) rows)).

(** The same services with another classifier. *)
Definition with_classifier (llm : nat -> string -> res string) (env : Env) : Env :=
  {| config := config env; datetime_str := datetime_str env; clock := clock env;
     fresh_id := fresh_id env; generate_content := llm; list_unread := list_unread env;
     modify_labels := modify_labels env; deliver := deliver env;
     get_profile := get_profile env; summary_subject := summary_subject env;
     summary_body := summary_body env |}.

(** The same services with another number of attempts in the
    configuration. *)
Definition with_retry_attempts (n : nat) (env : Env) : Env :=
  {| config := {| Config.backend_team_email := Config.backend_team_email (config env);
                  Config.code_team_email := Config.code_team_email (config env);
                  Config.rehit_team_email := Config.rehit_team_email (config env);
                  Config.max_emails_per_batch := Config.max_emails_per_batch (config env);
                  Config.retry_attempts := n |};
     datetime_str := datetime_str env; clock := clock env;
     fresh_id := fresh_id env; generate_content := generate_content env;
     list_unread := list_unread env;
     modify_labels := modify_labels env; deliver := deliver env;
     get_profile := get_profile env; summary_subject := summary_subject env;
     summary_body := summary_body env |}.

(** What a run leaves outside the clock: the log and the two traces. *)
Definition same_effects (w w' : World) : Prop :=
  db w' = db w /\ outbox w' = outbox w /\ read_marks w' = read_marks w.

(** The emails of a batch the log does not know. *)
Definition new_emails (emails : list EmailData) (log : list ProcessedEmail)
  : list EmailData :=
  List.filter (fun e => negb (Database.check_duplicate (message_id e) log)) emails.

(** The rows a reader asks for: the action, when one is given and not
    empty, and the two bounds on the time. *)
Definition row_matches (action_filter : option string) (date_from date_to : option Z)
    (r : ProcessedEmail) : Prop :=
  match action_filter with
  | Some a => a = EmptyString \/ value (action_taken r) = a
  | None => True
  end
  /\ match date_from with Some d => d <= processed_at r | None => True end
  /\ match date_to with Some d => processed_at r <= d | None => True end.

End Properties.

(* ================================================================== *)
(** * Facts and claims *)
(* ================================================================== *)

Section RuntimeFacts.
Import Py Properties.

Lemma chars_text l : chars (text l) = l.
Proof. apply list_ascii_of_string_of_list_ascii. Qed.

Lemma text_chars s : text (chars s) = s.
Proof. apply string_of_list_ascii_of_string. Qed.

Lemma retry_ret {A} n (body : nat -> res A) a :
  body O = Ret a -> retry n body = (Ret a, 1%nat).
Proof. intros H. unfold retry. now rewrite H. Qed.

Lemma space2_blank c1 c2 : space2 c1 c2 = true -> blank c1 /\ blank c2.
Proof.
  unfold space2, blank. intros H.
  apply andb_prop in H as [H1 H2]. apply N.eqb_eq in H1.
  apply orb_prop in H2 as [H2|H2]; apply N.eqb_eq in H2; split; right; lia.
Qed.

Lemma space3_blank c1 c2 c3 :
  space3 c1 c2 c3 = true -> blank c1 /\ blank c2 /\ blank c3.
Proof.
  unfold space3, blank. intros H.
  repeat (apply orb_prop in H as [H|H] || apply andb_prop in H as [H ?]);
    repeat match goal with
           | X : (_ && _)%bool = true |- _ => apply andb_prop in X as [? ?]
           | X : (_ || _)%bool = true |- _ => apply orb_prop in X as [?|?]
           | X : (_ =? _)%N = true |- _ => apply N.eqb_eq in X
           | X : (_ <=? _)%N = true |- _ => apply N.leb_le in X
           end; repeat split; right; lia.
Qed.

Lemma lstrip_split fwd l :
  exists pre, l = (pre ++ lstrip_bytes fwd l)%list /\ Forall blank pre.
Proof.
  remember (length l) as n eqn:Hn. revert l Hn.
  induction n as [n IH] using lt_wf_ind. intros l Hn.
  destruct l as [|c1 t1]; [exists nil; split; [reflexivity|constructor]|].
  cbn [lstrip_bytes].
  destruct (space1 c1) eqn:E1.
  { destruct (IH (length t1)) with (l := t1) as (pre & Hp & Hb); [simpl in Hn; lia|reflexivity|].
    exists (c1 :: pre). split; [simpl; congruence|apply Forall_cons_2; [left; exact E1|exact Hb]]. }
  destruct t1 as [|c2 t2]; [exists nil; split; [reflexivity|constructor]|].
  match goal with |- context [if ?b then _ else _] => destruct b eqn:E2 end.
  { assert (blank c1 /\ blank c2) as [B1 B2]
      by (destruct fwd; apply space2_blank in E2; tauto).
    destruct (IH (length t2)) with (l := t2) as (pre & Hp & Hb); [simpl in Hn; lia|reflexivity|].
    exists (c1 :: c2 :: pre). split; [simpl; congruence|repeat (apply Forall_cons_2; [assumption|]); exact Hb]. }
  destruct t2 as [|c3 t3]; [exists nil; split; [reflexivity|constructor]|].
  match goal with |- context [if ?b then _ else _] => destruct b eqn:E3 end.
  { assert (blank c1 /\ blank c2 /\ blank c3) as (B1 & B2 & B3)
      by (destruct fwd; apply space3_blank in E3; tauto).
    destruct (IH (length t3)) with (l := t3) as (pre & Hp & Hb); [simpl in Hn; lia|reflexivity|].
    exists (c1 :: c2 :: c3 :: pre). split; [simpl; congruence|repeat (apply Forall_cons_2; [assumption|]); exact Hb]. }
  exists nil. split; [reflexivity|constructor].
Qed.

Lemma strip_split l :
  exists pre post, l = (pre ++ strip_bytes l ++ post)%list
                   /\ Forall blank pre /\ Forall blank post.
Proof.
  destruct (lstrip_split true l) as (pre & Hl & Hpre).
  destruct (lstrip_split false (rev (lstrip_bytes true l))) as (p2 & Hr & Hp2).
  exists pre, (rev p2). repeat split; [|assumption|now apply Forall_rev].
  unfold strip_bytes. rewrite <- rev_app_distr, <- Hr, rev_involutive. exact Hl.
Qed.
End RuntimeFacts.

Section FindFacts.
Import Py Properties.

Lemma ascii_eqb_refl c : Ascii.eqb c c = true.
Proof. apply Ascii.eqb_refl. Qed.

Lemma find_from_notin c l i : c ∉ l -> find_from c l i = -1.
Proof.
  revert i. induction l as [|x l IH]; intros i H; [reflexivity|].
  apply not_elem_of_cons in H as [Hx Hl]. simpl.
  destruct (Ascii.eqb x c) eqn:E; [apply Ascii.eqb_eq in E; congruence|].
  now apply IH.
Qed.

Lemma find_from_first c a b i :
  c ∉ a -> find_from c (a ++ c :: b) i = i + Z.of_nat (length a).
Proof.
  revert i. induction a as [|x a IH]; intros i H; simpl.
  - rewrite ascii_eqb_refl. lia.
  - apply not_elem_of_cons in H as [Hx Ha].
    destruct (Ascii.eqb x c) eqn:E; [apply Ascii.eqb_eq in E; congruence|].
    rewrite IH by assumption. lia.
Qed.

Lemma rfind_from_notin c l i last : c ∉ l -> rfind_from c l i last = last.
Proof.
  revert i last. induction l as [|x l IH]; intros i last H; [reflexivity|].
  apply not_elem_of_cons in H as [Hx Hl]. simpl.
  destruct (Ascii.eqb x c) eqn:E; [apply Ascii.eqb_eq in E; congruence|].
  now apply IH.
Qed.

Lemma rfind_from_last c a b i last :
  c ∉ b -> rfind_from c (a ++ c :: b) i last = i + Z.of_nat (length a).
Proof.
  revert i last. induction a as [|x a IH]; intros i last H; simpl.
  - rewrite ascii_eqb_refl, rfind_from_notin by assumption. lia.
  - rewrite IH by assumption. lia.
Qed.

Lemma blank_notin c l : ~ blank c -> Forall blank l -> c ∉ l.
Proof.
  intros Hc Hl Hin. rewrite Forall_forall in Hl. apply Hc, Hl, Hin.
Qed.

Lemma brace_not_blank c : c = "{"%char \/ c = "}"%char -> ~ blank c.
Proof.
  intros [->| ->] [H|H]; vm_compute in H; try discriminate; now apply H.
Qed.

(** The slice between the braces does not depend on the white space
    around the text. *)
Lemma json_slice_strip s : json_slice (strip s) = json_slice s.
Proof.
  unfold json_slice, find, rfind, slice, strip. rewrite chars_text.
  destruct (strip_split (chars s)) as (pre & post & Hl & Hpre & Hpost).
  set (M := strip_bytes (chars s)) in *. clearbody M.
  assert (Ho : forall c, c = "{"%char \/ c = "}"%char -> (c ∉ pre) /\ (c ∉ post)).
  { intros c Hc. split; apply blank_notin; auto using brace_not_blank. }
  destruct (Ho "{"%char) as [Ho1 Ho2]; [now left|].
  destruct (Ho "}"%char) as [Hc1 Hc2]; [now right|]. clear Ho.
  rewrite Hl.
  destruct (decide ("{"%char ∈ M)) as [Hin|Hout].
  2:{ rewrite !find_from_notin; [reflexivity| |assumption].
      rewrite !not_elem_of_app. tauto. }
  destruct (decide ("}"%char ∈ M)) as [Hin2|Hout2].
  2:{ rewrite !(rfind_from_notin "}"); [|rewrite !not_elem_of_app; tauto|assumption].
      rewrite !orb_true_r. reflexivity. }
  apply list_elem_of_split_l in Hin as (a & b & HM & Ha).
  apply list_elem_of_split_r in Hin2 as (a2 & b2 & HM2 & Hb2).
  assert (E1 : find_from "{" (pre ++ M ++ post) 0 = Z.of_nat (length pre + length a)).
  { rewrite HM, <- app_assoc, app_assoc. simpl.
    rewrite find_from_first by (rewrite not_elem_of_app; tauto).
    rewrite length_app. lia. }
  assert (E2 : find_from "{" M 0 = Z.of_nat (length a)).
  { rewrite HM, find_from_first by assumption. lia. }
  assert (E3 : rfind_from "}" (pre ++ M ++ post) 0 (-1) = Z.of_nat (length pre + length a2)).
  { rewrite HM2, <- app_assoc, app_assoc. simpl.
    rewrite rfind_from_last by (rewrite not_elem_of_app; tauto).
    rewrite length_app. lia. }
  assert (E4 : rfind_from "}" M 0 (-1) = Z.of_nat (length a2)).
  { rewrite HM2, rfind_from_last by assumption. lia. }
  rewrite E1, E2, E3, E4.
  assert (La : (length a <= length M)%nat) by (rewrite HM, length_app; lia).
  assert (La2 : (length a2 + 1 <= length M)%nat) by (rewrite HM2, length_app; simpl; lia).
  replace (Z.of_nat (length pre + length a) =? -1) with false by (symmetry; apply Z.eqb_neq; lia).
  replace (Z.of_nat (length a) =? -1) with false by (symmetry; apply Z.eqb_neq; lia).
  replace (Z.of_nat (length pre + length a2) + 1 =? 0) with false by (symmetry; apply Z.eqb_neq; lia).
  replace (Z.of_nat (length a2) + 1 =? 0) with false by (symmetry; apply Z.eqb_neq; lia).
  simpl. f_equal. f_equal.
  rewrite !Nat2Z.id.
  replace (Z.to_nat (Z.of_nat (length pre + length a2) + 1 - Z.of_nat (length pre + length a)))
    with (Z.to_nat (Z.of_nat (length a2) + 1 - Z.of_nat (length a))) by lia.
  set (k := Z.to_nat _).
  assert (Hk : (k <= length M - length a)%nat) by (unfold k; lia).
  rewrite drop_app_add, drop_app_le by assumption.
  rewrite take_app_le by (rewrite length_drop; exact Hk). reflexivity.
Qed.

End FindFacts.

Section DecoderFacts.
Import Py Json Properties.

Lemma skip_ws_length l : (length (skip_ws l) <= length l)%nat.
Proof.
  induction l as [|c l IH]; simpl; [lia|]. destruct (is_ws c); simpl; lia.
Qed.

Lemma skip_ws_cons l c r : skip_ws l = c :: r -> (length r < length l)%nat.
Proof. intros H. pose proof (skip_ws_length l) as L. rewrite H in L. simpl in L. lia. Qed.

Lemma scanstring_spec l : forall st out,
  match scanstring st out l with
  | Ret (_, r) => (length r < length l)%nat
  | Raise e => e <> RecursionError
  end.
Proof.
  induction l as [|c l IH]; intros st out; [discriminate|].
  cbn [scanstring].
  assert (N : forall o, match (if (code c =? 34)%N then Ret (text (rev o), l)
                    else if (code c =? 92)%N then scanstring SEsc o l
                    else if (code c <? 32)%N then err "Invalid control character at"
                    else scanstring SNormal (c :: o) l) with
              | Ret (_, r) => (length r < length (c :: l))%nat
              | Raise e => e <> RecursionError end).
  { intros o. unfold err. repeat case_match; simplify_eq; simpl; try lia; try discriminate;
      match goal with
      | H : scanstring ?s ?o' l = _ |- _ =>
          let X := fresh in pose proof (IH s o') as X; rewrite H in X; simpl; try lia; try assumption
      end. }
  assert (E : forall o, match (if (code c =? 117)%N then scanstring (SHex 4 0%N None) o l
                    else match escape_char c with
                         | Some x => scanstring SNormal (x :: o) l
                         | None => err "Invalid \escape" end) with
              | Ret (_, r) => (length r < length (c :: l))%nat
              | Raise e => e <> RecursionError end).
  { intros o. destruct (code c =? 117)%N.
    - specialize (IH (SHex 4 0%N None) o). destruct (scanstring _ _ l) as [[]|]; simpl; [lia|assumption].
    - destruct (escape_char c); [|discriminate].
      specialize (IH SNormal (a :: o)). destruct (scanstring _ _ l) as [[]|]; simpl; [lia|assumption]. }
  destruct st.
  - apply N.
  - apply E.
  - destruct (hex_val c); [|discriminate].
    repeat case_match; subst;
      match goal with
      | H : scanstring ?s ?o l = _ |- _ =>
          let X := fresh in pose proof (IH s o) as X; rewrite H in X; simpl; try lia; try assumption
      end.
  - destruct (code c =? 92)%N; [|apply N].
    specialize (IH (SHighEsc hs) out). destruct (scanstring _ _ l) as [[]|]; simpl; [lia|assumption].
  - destruct (code c =? 117)%N; [|apply E].
    specialize (IH (SHex 4 0%N (Some hs)) out). destruct (scanstring _ _ l) as [[]|]; simpl; [lia|assumption].
Qed.

Lemma span_digits_length l d r :
  span_digits l = (d, r) -> (length l = length d + length r)%nat.
Proof.
  revert d r. induction l as [|c l IH]; intros d r; simpl.
  - intros [= <- <-]. reflexivity.
  - destruct (is_digit c).
    + destruct (span_digits l) as [d' r'] eqn:E. intros [= <- <-].
      specialize (IH _ _ eq_refl). simpl. lia.
    + intros [= <- <-]. reflexivity.
Qed.

Lemma match_number_spec l :
  match match_number l with
  | Some (v, r) => (length r <= length l)%nat /\ v <> Raise RecursionError
  | None => True
  end.
Proof.
  unfold match_number.
  repeat case_match; simplify_eq; try exact I;
    repeat match goal with
           | H : span_digits _ = _ |- _ => apply span_digits_length in H
           end; simpl in *; (split; [lia|discriminate]).
Qed.

Lemma strip_prefix_length w : forall l r,
  strip_prefix w l = Some r -> (length r <= length l)%nat.
Proof.
  induction w as [|a w IH]; intros l r; simpl.
  - intros [= <-]. lia.
  - destruct l as [|b l]; [discriminate|]. destruct (Ascii.eqb a b); [|discriminate].
    intros H. apply IH in H. simpl. lia.
Qed.

Lemma literal_length l v r : literal l = Some (v, r) -> (length r <= length l)%nat.
Proof.
  unfold literal. intros H. unfold fmap, option_fmap, option_map in H.
  repeat match type of H with
         | context [strip_prefix ?w l] =>
             let E := fresh "E" in
             destruct (strip_prefix w l) eqn:E;
             [apply strip_prefix_length in E|]
         end; simplify_eq; assumption.
Qed.

Lemma scan_ok_err slack fuel l msg : scan_ok slack fuel l (err msg).
Proof. discriminate. Qed.

Lemma scan_spec fuel :
  (forall l, scan_ok 0 fuel l (scan_once fuel l))
  /\ (forall l acc, scan_ok 0 fuel l (members fuel l acc))
  /\ (forall l acc, scan_ok 1 fuel l (elements fuel l acc)).
Proof.
  induction fuel as [|f (IHs & IHm & IHe)].
  { repeat split; intros; simpl; intros _; lia. }
  repeat split.
  - intros l. cbn [scan_once]. destruct l as [|c r]; [apply scan_ok_err|].
    destruct (code c =? 34)%N.
    { pose proof (scanstring_spec r SNormal []) as S.
      destruct (scanstring SNormal [] r) as [[s r']|e]; simpl in *; [lia|tauto]. }
    destruct (code c =? 123)%N.
    { destruct (skip_ws r) as [|c' r'] eqn:E; [apply scan_ok_err|].
      pose proof (skip_ws_length r) as L. rewrite E in L. simpl in L.
      destruct (code c' =? 125)%N; [simpl; lia|].
      specialize (IHm (c' :: r') ∅). unfold scan_ok in *.
      destruct (members f (c' :: r') ∅) as [[v r'']|e]; simpl in *; [lia|].
      intros He. specialize (IHm He). lia. }
    destruct (code c =? 91)%N.
    { destruct (skip_ws r) as [|c' r'] eqn:E; [apply scan_ok_err|].
      pose proof (skip_ws_length r) as L. rewrite E in L. simpl in L.
      destruct (code c' =? 93)%N; [simpl; lia|].
      specialize (IHe (c' :: r') []). unfold scan_ok in *.
      destruct (elements f (c' :: r') []) as [[v r'']|e]; simpl in *; [lia|].
      intros He. specialize (IHe He). lia. }
    destruct (literal (c :: r)) as [[v r']|] eqn:E.
    { apply literal_length in E. exact E. }
    pose proof (match_number_spec (c :: r)) as M.
    destruct (match_number (c :: r)) as [[v r']|]; [|apply scan_ok_err].
    destruct M as [M1 M2]. destruct v as [j|e]; simpl; [exact M1|congruence].
  - intros l acc. cbn [members]. destruct l as [|c r]; [apply scan_ok_err|].
    destruct (negb _); [apply scan_ok_err|].
    pose proof (scanstring_spec r SNormal []) as S.
    destruct (scanstring SNormal [] r) as [[k r1]|e]; [|simpl; tauto]. cbn [res_bind].
    destruct (skip_ws r1) as [|c1 r2] eqn:E1; [apply scan_ok_err|].
    apply skip_ws_cons in E1.
    destruct (negb _); [apply scan_ok_err|].
    pose proof (skip_ws_length r2) as L2.
    specialize (IHs (skip_ws r2)). unfold scan_ok in IHs |- *.
    destruct (scan_once f (skip_ws r2)) as [[v r3]|e]; cbn [res_bind];
      [|intros He; specialize (IHs He); simpl; lia].
    destruct (skip_ws r3) as [|c2 r4] eqn:E3; [discriminate|].
    apply skip_ws_cons in E3.
    destruct (code c2 =? 125)%N; [simpl; lia|].
    destruct (code c2 =? 44)%N; [|discriminate].
    pose proof (skip_ws_length r4) as L4.
    specialize (IHm (skip_ws r4) (<[k:=v]> acc)). unfold scan_ok in IHm.
    destruct (members f (skip_ws r4) _) as [[v' r5]|e]; simpl in *; [lia|].
    intros He. specialize (IHm He). lia.
  - intros l acc. cbn [elements].
    specialize (IHs l). unfold scan_ok in IHs |- *.
    destruct (scan_once f l) as [[v r]|e]; cbn [res_bind];
      [|intros He; specialize (IHs He); lia].
    destruct (skip_ws r) as [|c r'] eqn:E; [discriminate|].
    apply skip_ws_cons in E.
    destruct (code c =? 93)%N; [simpl; lia|].
    destruct (code c =? 44)%N; [|discriminate].
    pose proof (skip_ws_length r') as L.
    specialize (IHe (skip_ws r') (v :: acc)). unfold scan_ok in IHe.
    destruct (elements f (skip_ws r') _) as [[v' r5]|e]; simpl in *; [lia|].
    intros He. specialize (IHe He). lia.
Qed.


Lemma members_object f : forall l acc v r,
  members f l acc = Ret (v, r) -> exists d, v = JObject d.
Proof.
  induction f as [|f IH]; intros l acc v r; [discriminate|]. cbn [members].
  destruct l as [|c l]; [discriminate|].
  destruct (negb _); [discriminate|].
  destruct (scanstring SNormal [] l) as [[k r1]|]; [|discriminate]. cbn [res_bind].
  destruct (skip_ws r1) as [|c1 r2]; [discriminate|].
  destruct (negb _); [discriminate|].
  destruct (scan_once f (skip_ws r2)) as [[v' r3]|]; [|discriminate]. cbn [res_bind].
  destruct (skip_ws r3) as [|c2 r4]; [discriminate|].
  destruct (code c2 =? 125)%N; [intros [= <- <-]; eauto|].
  destruct (code c2 =? 44)%N; [apply IH|discriminate].
Qed.

(** A text that opens with a brace decodes to a dict, or not at all. *)
Lemma loads_brace_object s r v :
  chars s = "{"%char :: r -> loads s = Ret v -> exists d, v = JObject d.
Proof.
  intros Hs. unfold loads. rewrite Hs.
  change (skip_ws ("{"%char :: r)) with ("{"%char :: r).
  cbn [scan_once]. change (code "{" =? 34)%N with false. change (code "{" =? 123)%N with true.
  cbv iota.
  destruct (skip_ws r) as [|c' r'].
  { discriminate. }
  destruct (code c' =? 125)%N.
  { cbn [res_bind]. destruct (skip_ws r'); [intros [= <-]; eauto|discriminate]. }
  destruct (members _ (c' :: r') ∅) as [[v' r'']|] eqn:E; [|discriminate].
  cbn [res_bind]. apply members_object in E as [d ->].
  destruct (skip_ws r''); [intros [= <-]; eauto|discriminate].
Qed.

End DecoderFacts.

Section ParserFacts.
Import Py Json Models Services LlmAnalyzer Properties.

Lemma contains_true d k v : d !! k = Some v -> contains d k = true.
Proof. intros H. unfold contains. apply bool_decide_eq_true. rewrite H. eauto. Qed.

Lemma contains_false d k : d !! k = None -> contains d k = false.
Proof.
  intros H. unfold contains. apply bool_decide_eq_false. rewrite H.
  intros [x Hx]. discriminate.
Qed.

Lemma get_some d k v dflt : d !! k = Some v -> get d k dflt = v.
Proof. intros H. unfold get. now rewrite H. Qed.

Lemma get_none d k dflt : d !! k = None -> get d k dflt = dflt.
Proof. intros H. unfold get. now rewrite H. Qed.

Lemma action_values_of s :
  In s action_values -> exists a, value a = s /\ ActionType_of s = Ret a.
Proof.
  intros [<-|[<-|[<-|[]]]]; [exists RE_HIT|exists BACKEND|exists CODE]; split; reflexivity.
Qed.

Lemma action_is_valid_true s : In s action_values -> action_is_valid (JString s) = true.
Proof. intros [<-|[<-|[<-|[]]]]; reflexivity. Qed.

Lemma action_is_valid_false a :
  (forall s, In s action_values -> a <> JString s) -> action_is_valid a = false.
Proof.
  intros H. destruct a as [| | | |s| |]; try reflexivity. unfold action_is_valid.
  apply not_true_is_false. intros E. apply existsb_exists in E as (x & Hx & Ex).
  apply String.eqb_eq in Ex. subst x. now apply (H s).
Qed.

(** What the constructor returns satisfies the invariant of
    [LLMAnalysis]. *)
Lemma LLMAnalysis_new_sound a rv cv an :
  LLMAnalysis_new a rv cv = Ret an -> well_formed an /\ action an = a.
Proof.
  unfold LLMAnalysis_new, well_formed.
  destruct rv as [| | | |r| |]; try discriminate.
  destruct (String.eqb (strip r) EmptyString) eqn:E; [discriminate|].
  apply String.eqb_neq in E.
  destruct cv as [| |z|f| | |]; try discriminate.
  - intros [= <-]. simpl. auto.
  - destruct (in_unit_interval (float_of_int z)) eqn:Ei; [|discriminate].
    intros [= <-]. simpl. auto.
  - destruct (in_unit_interval f) eqn:Ei; [|discriminate].
    intros [= <-]. simpl. auto.
Qed.

Lemma LLMAnalysis_new_blank_reason a r cv :
  strip r = EmptyString -> raises (LLMAnalysis_new a (JString r) cv) = true.
Proof. intros H. unfold LLMAnalysis_new. rewrite H. reflexivity. Qed.

Lemma LLMAnalysis_new_out_of_range a rv cv f :
  as_number cv = Some f -> in_unit_interval f = false ->
  raises (LLMAnalysis_new a rv cv) = true.
Proof.
  intros Hn Hf. unfold LLMAnalysis_new.
  destruct rv; try reflexivity.
  destruct (String.eqb (strip s) EmptyString); [reflexivity|].
  destruct cv; try discriminate; simpl in Hn; injection Hn as <-; now rewrite Hf.
Qed.

Lemma validate_response_sound v an :
  validate_response v = Ret (Some an) -> well_formed an.
Proof.
  unfold validate_response. destruct v as [| | | | | |d]; try discriminate.
  destruct (negb (contains d "action") || negb (contains d "reason")); [discriminate|].
  destruct (negb (action_is_valid (get d "action" JNull))); [discriminate|].
  destruct (get d "action" JNull) as [| | | |s| |]; try discriminate.
  destruct (ActionType_of s) as [a|]; [|discriminate]. simpl.
  destruct (LLMAnalysis_new _ _ _) as [x|] eqn:E; [|discriminate]. simpl.
  intros [= <-]. now apply LLMAnalysis_new_sound in E.
Qed.

(** The parser, read off the slice between the braces. *)
Lemma parse_body_eq response_text :
  parse_body response_text =
  match json_slice response_text with
  | None => Ret None
  | Some s => res_bind (loads s) validate_response
  end.
Proof.
  rewrite <- (json_slice_strip response_text). unfold parse_body, json_slice.
  destruct (_ || _); reflexivity.
Qed.

Lemma parse_gemini_response_eq response_text :
  _parse_gemini_response response_text =
  Ret (match json_slice response_text with
       | None => None
       | Some s => try_except (res_bind (loads s) validate_response) (fun _ => None)
       end).
Proof.
  unfold _parse_gemini_response. rewrite parse_body_eq.
  destruct (json_slice response_text); reflexivity.
Qed.

Lemma parse_extracted response_text d :
  extracted_object response_text = Some d ->
  _parse_gemini_response response_text =
  Ret (try_except (validate_response (JObject d)) (fun _ => None)).
Proof.
  unfold extracted_object. rewrite parse_gemini_response_eq.
  destruct (json_slice response_text) as [s|]; [|discriminate].
  destruct (loads s) as [[]|]; try discriminate. now intros [= ->].
Qed.

Lemma json_slice_none response_text :
  find "{" response_text = -1 \/ rfind "}" response_text = -1 ->
  json_slice response_text = None.
Proof.
  unfold json_slice. intros [-> | ->]; [reflexivity|]. now rewrite orb_true_r.
Qed.

Lemma json_slice_crossed response_text :
  0 <= rfind "}" response_text < find "{" response_text ->
  json_slice response_text = Some EmptyString.
Proof.
  intros H. unfold json_slice.
  replace (find "{" response_text =? -1) with false by (symmetry; apply Z.eqb_neq; lia).
  replace (rfind "}" response_text + 1 =? 0) with false by (symmetry; apply Z.eqb_neq; lia).
  simpl. unfold slice.
  replace (Z.to_nat (rfind "}" response_text + 1 - find "{" response_text)) with O by lia.
  reflexivity.
Qed.

End ParserFacts.

Section ParserClaims.
Import Py Json Models Services LlmAnalyzer Properties.

(** C6.  When the JSON object between the first opening and the last
    closing brace of a response has an action among Re-hit, Backend and
    Code, a reason that is a string with something other than white
    space in it, and no confidence key, the parser returns an analysis
    with that action and (up to trimming) that reason, whose confidence
    is the float 0.8. *)
Theorem parse_default_confidence response_text d a r :
  extracted_object response_text = Some d ->
  d !! "action" = Some (JString a) ->
  In a action_values ->
  d !! "reason" = Some (JString r) ->
  strip r <> EmptyString ->
  d !! "confidence" = None ->
  exists analysis,
    _parse_gemini_response response_text = Ret (Some analysis)
    /\ value (action analysis) = a
    /\ strip (reason analysis) = strip r
    /\ confidence analysis = Some conf_default
    /\ conf_default = float_of_decimal false 8 (-1).
Proof.
  intros Hd Ha Hin Hr Hne Hc.
  destruct (action_values_of a Hin) as (at_ & Hv & Hat).
  exists {| action := at_; reason := r; confidence := Some conf_default |}.
  split; [|repeat split; exact Hv].
  rewrite (parse_extracted _ _ Hd). unfold validate_response.
  rewrite (contains_true _ _ _ Ha), (contains_true _ _ _ Hr). simpl.
  rewrite (get_some _ _ _ _ Ha), (action_is_valid_true _ Hin). simpl.
  rewrite Hat. simpl.
  rewrite (get_some _ _ _ _ Hr), (get_none _ _ _ Hc).
  unfold LLMAnalysis_new.
  apply String.eqb_neq in Hne. rewrite Hne. reflexivity.
Qed.

(** C7.  The parser returns None when the JSON object between the
    first opening and the last closing brace carries an action that is
    none of Re-hit, Backend and Code, and also when the response holds
    no opening brace or no closing brace. *)
Theorem parse_rejects_invalid_action response_text :
  (forall d a,
      extracted_object response_text = Some d ->
      d !! "action" = Some a ->
      (forall s, In s action_values -> a <> JString s) ->
      _parse_gemini_response response_text = Ret None)
  /\ (find "{" response_text = -1 \/ rfind "}" response_text = -1 ->
      _parse_gemini_response response_text = Ret None).
Proof.
  split.
  - intros d a Hd Ha Hbad. rewrite (parse_extracted _ _ Hd). unfold validate_response.
    rewrite (contains_true _ _ _ Ha).
    destruct (contains d "reason"); [|reflexivity]. simpl.
    rewrite (get_some _ _ _ _ Ha), (action_is_valid_false _ Hbad). reflexivity.
  - intros H. rewrite parse_gemini_response_eq, (json_slice_none _ H). reflexivity.
Qed.

(** C10.  On every response text the parser returns, without raising:
    either None or an analysis that meets the invariant of LLMAnalysis
    (the action is one of the three by its type, the reason is not
    blank once trimmed, the confidence is absent or within 0.0 and
    1.0).  It returns None in particular when the last closing brace
    stands before the first opening brace, when the text between the
    braces is not JSON, when the reason is empty or white space only,
    and when the confidence is a number outside 0.0 to 1.0. *)
Theorem parse_gemini_response_total response_text :
  (exists r, _parse_gemini_response response_text = Ret r
             /\ forall a, r = Some a -> well_formed a)
  /\ (0 <= rfind "}" response_text < find "{" response_text ->
      _parse_gemini_response response_text = Ret None)
  /\ (forall s e, json_slice response_text = Some s -> loads s = Raise e ->
      _parse_gemini_response response_text = Ret None)
  /\ (forall d r, extracted_object response_text = Some d ->
      d !! "reason" = Some (JString r) -> strip r = EmptyString ->
      _parse_gemini_response response_text = Ret None)
  /\ (forall d v f, extracted_object response_text = Some d ->
      d !! "confidence" = Some v -> as_number v = Some f ->
      in_unit_interval f = false ->
      _parse_gemini_response response_text = Ret None).
Proof.
  repeat split.
  - rewrite parse_gemini_response_eq. eexists. split; [reflexivity|].
    intros a. destruct (json_slice response_text) as [s|]; [|discriminate].
    destruct (loads s) as [v|]; [|discriminate]. simpl.
    destruct (validate_response v) as [[x|]|] eqn:E; try discriminate.
    intros [= <-]. exact (validate_response_sound _ _ E).
  - intros H. rewrite parse_gemini_response_eq, (json_slice_crossed _ H). reflexivity.
  - intros s e Hs He. rewrite parse_gemini_response_eq, Hs, He. reflexivity.
  - intros d r Hd Hr Hblank. rewrite (parse_extracted _ _ Hd). unfold validate_response.
    rewrite (contains_true _ _ _ Hr).
    destruct (contains d "action"); [|reflexivity]. simpl.
    destruct (action_is_valid _); [|reflexivity]. simpl.
    destruct (get d "action" JNull); try reflexivity.
    destruct (ActionType_of s) as [a|]; [|reflexivity]. simpl.
    rewrite (get_some _ _ _ _ Hr).
    pose proof (LLMAnalysis_new_blank_reason a r (get d "confidence" (JFloat conf_default)) Hblank) as Hx.
    destruct (LLMAnalysis_new _ _ _); [discriminate|reflexivity].
  - intros d v f Hd Hv Hn Hf. rewrite (parse_extracted _ _ Hd). unfold validate_response.
    destruct (negb (contains d "action") || negb (contains d "reason")); [reflexivity|].
    destruct (action_is_valid _); [|reflexivity]. simpl.
    destruct (get d "action" JNull); try reflexivity.
    destruct (ActionType_of s) as [a|]; [|reflexivity]. simpl.
    rewrite (get_some _ _ _ _ Hv).
    pose proof (LLMAnalysis_new_out_of_range a (get d "reason" JNull) v f Hn Hf) as Hx.
    destruct (LLMAnalysis_new _ _ _); [discriminate|reflexivity].
Qed.

End ParserClaims.

Section DatabaseFacts.
Import Py Models Services Database Properties.

(** A decidable predicate and its complement split a list. *)
Lemma length_filter_split {A} (P Q : A -> Prop)
    `{!forall x, Decision (P x)} `{!forall x, Decision (Q x)} (l : list A) :
  (forall x, Q x <-> ~ P x) ->
  (length (filter P l) + length (filter Q l) = length l)%nat.
Proof.
  intros HPQ. induction l as [|x l IH]; [reflexivity|].
  rewrite !filter_cons.
  destruct (decide (P x)) as [p|np], (decide (Q x)) as [q'|nq]; simpl.
  - apply HPQ in q'. contradiction.
  - lia.
  - lia.
  - exfalso. apply nq, HPQ, np.
Qed.

Lemma success_counts (df : DataFrame) :
  (length (filter (fun r => success r = true) df)
   + length (filter (fun r => success r = false) df) = length df)%nat.
Proof.
  apply length_filter_split. intros r. destruct (success r); split; congruence.
Qed.

End DatabaseFacts.

Section DatabaseClaims.
Import Py Models Services Database Properties.

(** C2, at the input where the code departs from it.  A record whose
    message id is the numeral 1 (the ids of the IMAP reader are such
    sequence numbers) is saved into an empty log; the save succeeds;
    read back, the id column is numeric, and check_duplicate answers
    False for that very id. *)
Theorem check_duplicate_misses_numeric_id :
  let r := Samples.record "1" BACKEND 0 false in
  save_processed_email r [] = (true, [r])
  /\ original_message_id r = "1"
  /\ read_id_column (map original_message_id [r]) = [CNum]
  /\ check_duplicate "1" [r] = false.
Proof. vm_compute. repeat split. Qed.




(** C9.  With a positive limit n, get_processed_emails returns the
    last n rows of the filtered log: a suffix of it, of length n or of
    the whole length when the filtered log is shorter. *)
Theorem limit_keeps_last_rows n action_filter date_from date_to df :
  0 < n ->
  let matching := get_processed_emails None action_filter date_from date_to df in
  let result := get_processed_emails (Some n) action_filter date_from date_to df in
  result = lastn (Z.to_nat n) matching
  /\ result `suffix_of` matching
  /\ length result = Nat.min (Z.to_nat n) (length matching).
Proof.
  intros Hn matching result.
  assert (E : result = lastn (Z.to_nat n) matching).
  { subst result matching. unfold get_processed_emails, lastn.
    destruct df as [|r df]; [reflexivity|].
    replace (n =? 0) with false by (symmetry; apply Z.eqb_neq; lia).
    unfold tail. replace (0 <=? n) with true by (symmetry; apply Z.leb_le; lia).
    reflexivity. }
  split; [exact E|]. rewrite E. unfold lastn. split.
  - apply suffix_drop.
  - rewrite length_drop. lia.
Qed.

(** C9 on three rows and a limit of two: the last two rows come back,
    which are not the first two. *)
Lemma limit_keeps_last_rows_sample :
  let r1 := Samples.record "msg_1" BACKEND 10 true in
  let r2 := Samples.record "msg_2" CODE 20 false in
  let r3 := Samples.record "msg_3" RE_HIT 30 true in
  0 < 2
  /\ get_processed_emails (Some 2) None None None [r1; r2; r3] = [r2; r3]
  /\ get_processed_emails (Some 2) None None None [r1; r2; r3] <> take 2 [r1; r2; r3].
Proof.
  intros r1 r2 r3.
  assert (H : 0 < 2) by lia.
  destruct (limit_keeps_last_rows 2 None None None [r1; r2; r3] H) as (E & _ & _).
  split; [exact H|]. rewrite E. split; [reflexivity|discriminate].
Defined.

End DatabaseClaims.

Section PipelineFacts.
Import Py Models Services Properties.

(** The body of [analyze_email] returns on every path, so the first
    attempt is the only one. *)
Lemma analyze_email_eq env email_data w :
  LlmAnalyzer.analyze_email env email_data w
  = (LlmAnalyzer.analyze_email_body env email_data (tick w), advance 1 w).
Proof.
  unfold LlmAnalyzer.analyze_email.
  rewrite (retry_ret _ _ (try_except
     (res_bind (generate_content env (tick w) (LlmAnalyzer._create_analysis_prompt env email_data))
        (fun response_text =>
           if String.eqb response_text EmptyString then Ret None
           else LlmAnalyzer._parse_gemini_response response_text))
     (fun _ => None))).
  - unfold LlmAnalyzer.analyze_email_body. reflexivity.
  - unfold LlmAnalyzer.analyze_email_body. now rewrite Nat.add_0_r.
Qed.

Lemma send_summary_email_eq env s w :
  EmailSender.send_summary_email env s w
  = (Ret (EmailSender._send_via_transport env (tick w) s), push_outbox 1 s (advance 1 w)).
Proof.
  unfold EmailSender.send_summary_email.
  rewrite (retry_ret _ _ (EmailSender._send_via_transport env (tick w) s)); [reflexivity|].
  now rewrite Nat.add_0_r.
Qed.

Lemma fetch_keeps_world env m w :
  let w' := snd (EmailReader.fetch_unread_emails env m w) in
  db w' = db w /\ outbox w' = outbox w /\ read_marks w' = read_marks w.
Proof.
  unfold EmailReader.fetch_unread_emails. destruct (retry _ _) as [r n]. simpl. auto.
Qed.

Lemma str_in_values_read k col :
  Database.str_in_values k (Database.read_id_column col) = true -> In k col.
Proof.
  unfold Database.read_id_column, Database.str_in_values.
  destruct (forallb _ col).
  { intros H. apply existsb_exists in H as (c & Hc & Hk).
    apply in_map_iff in Hc as (s & <- & _). destruct (Database.is_na s); discriminate. }
  destruct (forallb _ col).
  { intros H. apply existsb_exists in H as (c & Hc & Hk).
    apply in_map_iff in Hc as (s & <- & _). destruct (Database.is_na s); discriminate. }
  intros H. apply existsb_exists in H as (c & Hc & Hk).
  apply in_map_iff in Hc as (s & <- & Hs). destruct (Database.is_na s); [discriminate|].
  apply String.eqb_eq in Hk. now subst.
Qed.

(** An id that no row carries is not reported as a duplicate. *)
Lemma check_duplicate_absent k df :
  ~ In k (map original_message_id df) -> Database.check_duplicate k df = false.
Proof.
  intros H. unfold Database.check_duplicate. destruct df as [|r df]; [reflexivity|].
  apply not_true_is_false. intros E. apply H. now apply str_in_values_read.
Qed.

End PipelineFacts.

Section PipelineClaims.
Import Py Models Services Properties.


End PipelineClaims.

Section CycleClaims.
Import Py Models Services Properties Processor.

(** The branch of [_process_single_email] taken when the analysis
    gives no result. *)
Lemma process_single_email_no_analysis env email_data w :
  fst (LlmAnalyzer.analyze_email env email_data w) = Ret None ->
  _process_single_email env email_data w
  = (Ret false,
     record_failure env email_data BACKEND "LLM analysis failed"
       (Config.backend_team_email (config env)) "LLM analysis failed"
       (push_outbox 1 (EmailSender.error_notification env "LLM analysis failed" email_data)
          (advance 1 (advance 1 w)))).
Proof.
  intros H. unfold _process_single_email.
  rewrite analyze_email_eq in *. cbn [fst] in H. rewrite H.
  unfold EmailSender.send_error_notification. rewrite send_summary_email_eq.
  reflexivity.
Qed.

(** C1.  A cycle that fetches exactly one unread email whose id is in
    no row of the log, and whose analysis yields no result, returns
    processed 1, successful 0, failed 1, skipped 0; appends exactly one
    row, with success false, action Backend and an error message that
    is not empty; hands exactly one message to the transport, the
    error notification addressed to the backend team; and calls
    mark_as_read for no message. *)
Theorem failed_analysis_cycle env w email_data :
  let batch := Config.max_emails_per_batch (config env) in
  let fetched := EmailReader.fetch_unread_emails env batch (advance 1 w) in
  fst fetched = Ret [email_data] ->
  ~ In (message_id email_data) (map original_message_id (db w)) ->
  fst (LlmAnalyzer.analyze_email env email_data (snd fetched)) = Ret None ->
  let results := fst (process_alerts env w) in
  let w' := snd (process_alerts env w) in
  processed_count results = 1
  /\ successful_count results = 0
  /\ failed_count results = 1
  /\ skipped_count results = 0
  /\ (exists rec msg,
        db w' = (db w ++ [rec])%list
        /\ original_message_id rec = message_id email_data
        /\ success rec = false
        /\ action_taken rec = BACKEND
        /\ error_message rec = Some msg /\ msg <> EmptyString)
  /\ (exists notice,
        outbox w' = (outbox w ++ [notice])%list
        /\ notice = EmailSender.error_notification env "LLM analysis failed" email_data
        /\ recipient notice = Config.backend_team_email (config env))
  /\ read_marks w' = read_marks w.
Proof.
  intros batch fetched Hfetch Hnew Hllm results w'.
  pose proof (fetch_keeps_world env batch (advance 1 w)) as (Hdb & Hout & Hmarks).
  fold fetched in Hdb, Hout, Hmarks. simpl in Hdb, Hout, Hmarks.
  assert (Hdup : Database.check_duplicate (message_id email_data) (db (snd fetched)) = false).
  { rewrite Hdb. now apply check_duplicate_absent. }
  subst results w'. unfold process_alerts, now. cbn [fst snd].
  fold batch. fold fetched.
  destruct fetched as [r w2]. cbn [fst snd] in *. subst r.
  unfold _filter_unprocessed_emails. cbn [List.filter]. rewrite Hdup.
  cbn [negb length process_each].
  rewrite (process_single_email_no_analysis _ _ _ Hllm).
  cbn. rewrite Hdb, Hout, Hmarks.
  repeat split.
  - do 2 eexists. split; [reflexivity|]. repeat split. discriminate.
  - eexists. split; [reflexivity|]. split; reflexivity.
Qed.

(** C1 on the sample email, with a classifier that answers text
    without JSON. *)
Lemma failed_analysis_cycle_sample :
  let env := Samples.env_unparseable in
  let w := Samples.empty_world in
  let results := fst (process_alerts env w) in
  let w' := snd (process_alerts env w) in
  (processed_count results, successful_count results,
   failed_count results, skipped_count results) = (1, 0, 1, 0)
  /\ length (db w') = 1%nat
  /\ length (outbox w') = 1%nat
  /\ read_marks w' = [].
Proof.
  intros env w results w'.
  destruct (failed_analysis_cycle env w Samples.sample_email_data)
    as (H1 & H2 & H3 & H4 & (rec & msg & Hdb & _) & (notice & Hout & _) & Hmarks).
  - reflexivity.
  - simpl. tauto.
  - vm_compute. reflexivity.
  - fold results in H1, H2, H3, H4. fold w' in Hdb, Hout, Hmarks.
    rewrite H1, H2, H3, H4, Hdb, Hout, Hmarks. repeat split.
Defined.

(** C8, at the input where the code departs from it.  The health
    check passes and the fetch of the cycle then fails on all three
    attempts: the cycle records a critical error and processes nothing,
    run_once returns True and the process exits with status 0. *)
Theorem run_once_exits_zero_after_fetch_error :
  let '(ok, results, w') := Scheduler.run_once Samples.env_fetch_fails Samples.empty_world in
  ok = true
  /\ fst (Main.main_once Samples.env_fetch_fails Samples.empty_world) = 0
  /\ exists r, results = Some r
       /\ errors r = ["Critical error in alert processing: RetryError[503 Service Unavailable]"]
       /\ processed_count r = 0
       /\ cycle_failed r /\ ~ cycle_succeeded r /\ ~ cycle_noop r.
Proof.
  vm_compute. split; [reflexivity|]. split; [reflexivity|].
  eexists. split; [reflexivity|]. repeat split.
  - left. discriminate.
  - intros [H _]. discriminate H.
  - intros [H _]. discriminate H.
Qed.


End CycleClaims.

Section MoreProperties.
Import Py Models Services Properties Processor.

(** X2.  Routing: each action goes to its team, anything else to the
    backend team. *)
Theorem get_team_email_routes c :
  Config.get_team_email c "Re-hit" = Config.rehit_team_email c
  /\ Config.get_team_email c "Backend" = Config.backend_team_email c
  /\ Config.get_team_email c "Code" = Config.code_team_email c
  /\ forall s, ~ In s action_values ->
       Config.get_team_email c s = Config.backend_team_email c.
Proof.
  repeat split. intros s H. unfold Config.get_team_email.
  destruct (String.eqb_spec s "Re-hit") as [->|_]; [exfalso; apply H; simpl; tauto|].
  destruct (String.eqb_spec s "Backend") as [->|_]; [reflexivity|].
  destruct (String.eqb_spec s "Code") as [->|_]; [exfalso; apply H; simpl; tauto|].
  reflexivity.
Qed.

Lemma process_single_email_sent env email_data w analysis :
  fst (LlmAnalyzer.analyze_email env email_data w) = Ret (Some analysis) ->
  let recipient := Config.get_team_email (config env) (value (action analysis)) in
  let summary := from_analysis env email_data analysis recipient in
  EmailSender._send_via_transport env (S (tick w)) summary = true ->
  _process_single_email env email_data w
  = (Ret true,
     save (fst (new_processed_email env (push_outbox 1 summary (advance 1 (advance 1 w)))
                  (message_id email_data) (subject email_data) (sender email_data)
                  (action analysis) (reason analysis) recipient true None))
          (advance 1 (push_outbox 1 summary (advance 1 (advance 1 w))))).
Proof.
  intros H recipient summary Hsend. unfold _process_single_email.
  rewrite analyze_email_eq in *. cbn [fst] in H. rewrite H.
  fold recipient. fold summary. rewrite send_summary_email_eq.
  cbn [tick advance]. replace (tick w + 1)%nat with (S (tick w)) by lia.
  rewrite Hsend. reflexivity.
Qed.

(** X1.  The first end-to-end scenario of the specification: a cycle
    that fetches one unread email that is in no row of the log, gets an
    analysis for it and sends the summary successfully returns
    processed 1, successful 1, failed 0, skipped 0, appends one row
    with success true and the action of the analysis, hands the summary
    to the transport and marks the message read. *)
Theorem successful_cycle env w email_data analysis :
  let batch := Config.max_emails_per_batch (config env) in
  let fetched := EmailReader.fetch_unread_emails env batch (advance 1 w) in
  let recipient := Config.get_team_email (config env) (value (action analysis)) in
  let summary := from_analysis env email_data analysis recipient in
  fst fetched = Ret [email_data] ->
  ~ In (message_id email_data) (map original_message_id (db w)) ->
  fst (LlmAnalyzer.analyze_email env email_data (snd fetched)) = Ret (Some analysis) ->
  EmailSender._send_via_transport env (S (tick (snd fetched))) summary = true ->
  let results := fst (process_alerts env w) in
  let w' := snd (process_alerts env w) in
  processed_count results = 1
  /\ successful_count results = 1
  /\ failed_count results = 0
  /\ skipped_count results = 0
  /\ (exists rec,
        db w' = (db w ++ [rec])%list
        /\ original_message_id rec = message_id email_data
        /\ success rec = true
        /\ action_taken rec = action analysis
        /\ sent_to_team rec = recipient)
  /\ outbox w' = (outbox w ++ [summary])%list
  /\ read_marks w' = (read_marks w ++ [message_id email_data])%list.
Proof.
  intros batch fetched recipient summary Hfetch Hnew Hllm Hsend results w'.
  pose proof (fetch_keeps_world env batch (advance 1 w)) as (Hdb & Hout & Hmarks).
  fold fetched in Hdb, Hout, Hmarks. simpl in Hdb, Hout, Hmarks.
  assert (Hdup : Database.check_duplicate (message_id email_data) (db (snd fetched)) = false).
  { rewrite Hdb. now apply check_duplicate_absent. }
  subst results w'. unfold process_alerts, now. cbn [fst snd].
  fold batch. fold fetched.
  destruct fetched as [r w2]. cbn [fst snd] in *. subst r.
  unfold _filter_unprocessed_emails. cbn [List.filter]. rewrite Hdup.
  cbn [negb length process_each].
  rewrite (process_single_email_sent _ _ _ _ Hllm Hsend).
  cbn. rewrite Hdb, Hout, Hmarks.
  repeat split. eexists. split; [reflexivity|]. repeat split.
Qed.

(** X1 on the sample email: the row, the summary and the read mark. *)
Lemma successful_cycle_sample :
  let env := Samples.env_db_timeout in
  let w := Samples.empty_world in
  let results := fst (process_alerts env w) in
  let w' := snd (process_alerts env w) in
  (processed_count results, successful_count results,
   failed_count results, skipped_count results) = (1, 1, 0, 0)
  /\ map (fun r => (success r, action_taken r)) (db w') = [(true, BACKEND)]
  /\ map recipient (outbox w') = ["backend@company.com"]
  /\ read_marks w' = ["test_message_123"].
Proof.
  intros env w results w'.
  destruct (successful_cycle env w Samples.sample_email_data
              {| action := BACKEND; reason := "db timeout";
                 confidence := Some (float_of_decimal false 85 (-2)) |})
    as (H1 & H2 & H3 & H4 & (rec & Hdb & _ & Hs & Ha & _) & Hout & Hmarks).
  - reflexivity.
  - simpl. tauto.
  - vm_compute. reflexivity.
  - vm_compute. reflexivity.
  - fold results in H1, H2, H3, H4. fold w' in Hdb, Hout, Hmarks.
    rewrite H1, H2, H3, H4, Hdb, Hout, Hmarks. simpl. rewrite Hs, Ha. repeat split.
Defined.

End MoreProperties.

Section Examples.
Import Py Json Models Services LlmAnalyzer Properties.

(** C6 on a response with text before the object and no confidence. *)
Lemma parse_default_confidence_sample :
  exists analysis,
    _parse_gemini_response Samples.response_without_confidence = Ret (Some analysis)
    /\ value (action analysis) = "Re-hit"
    /\ strip (reason analysis) = strip "Temporary network issue"
    /\ confidence analysis = Some conf_default
    /\ conf_default = float_of_decimal false 8 (-1).
Proof.
  apply (parse_default_confidence Samples.response_without_confidence
           (<["reason" := JString "Temporary network issue"]>
              (<["action" := JString "Re-hit"]> ∅))).
  - vm_compute. reflexivity.
  - vm_compute. reflexivity.
  - simpl. tauto.
  - vm_compute. reflexivity.
  - vm_compute. discriminate.
  - vm_compute. reflexivity.
Defined.

(** [test_parse_gemini_response_success]. *)
Example parse_response_with_text_around :
  _parse_gemini_response Samples.response_with_text_around
  = Ret (Some {| action := CODE;
                 reason := "Application error in user authentication module";
                 confidence := Some (float_of_decimal false 92 (-2)) |}).
Proof. vm_compute. reflexivity. Qed.

(** [test_analyze_email_invalid_json], [test_analyze_email_invalid_action]
    and the validation cases of [TestLLMAnalysis]. *)
Example parse_rejections :
  _parse_gemini_response "This is not valid JSON" = Ret None
  /\ _parse_gemini_response Samples.response_invalid_action = Ret None
  /\ _parse_gemini_response Samples.response_blank_reason = Ret None
  /\ _parse_gemini_response Samples.response_confidence_too_high = Ret None
  /\ _parse_gemini_response "} {" = Ret None.
Proof. vm_compute. repeat split. Qed.

(** [test_check_duplicate]: an id that is not a numeral is found after
    the save, another id is not. *)
Example check_duplicate_text_id :
  let r := Samples.record "msg_123" BACKEND 0 true in
  Database.check_duplicate "msg_123" [] = false
  /\ Database.check_duplicate "msg_123" (snd (Database.save_processed_email r [])) = true
  /\ Database.check_duplicate "msg_456" (snd (Database.save_processed_email r [])) = false.
Proof. vm_compute. repeat split. Qed.

(** [test_get_processing_stats]: one success and one failure give a
    rate of 50.0. *)
Example stats_of_two_rows :
  let df := [Samples.record "msg_1" BACKEND 0 true; Samples.record "msg_2" CODE 0 false] in
  (fun st => (Database.total_processed st, Database.successful st,
              Database.failed st, Database.success_rate st))
    <$> Database.get_processing_stats 0 df
  = Some (2, 1, 1, float_of_int 50).
Proof. vm_compute. reflexivity. Qed.

(** [test_cleanup_old_records]: of a row 100 days old and a fresh one,
    a retention of 90 days removes the first. *)
Example cleanup_of_two_rows :
  let now := 200 * Database.day in
  let old := Samples.record "old_msg" BACKEND (100 * Database.day) true in
  let new := Samples.record "new_msg" CODE now true in
  Database.cleanup_old_records now 90 [old; new] = (1, [new]).
Proof. vm_compute. reflexivity. Qed.

End Examples.

(* ================================================================== *)
(** * Further properties of the code *)
(* ================================================================== *)

Section CycleAccounting.
Import Py Models Services Properties Processor.

(** What handling one email does, whatever the services answer. *)
Lemma process_single_email_spec env email_data w :
  exists ok rec msg,
    fst (_process_single_email env email_data w) = Ret ok
    /\ db (snd (_process_single_email env email_data w)) = (db w ++ [rec])%list
    /\ outbox (snd (_process_single_email env email_data w)) = (outbox w ++ [msg])%list
    /\ read_marks (snd (_process_single_email env email_data w)) = read_marks w
    /\ original_message_id rec = message_id email_data
    /\ success rec = ok
    /\ recipient msg = sent_to_team rec
    /\ action_type msg = action_taken rec
    /\ sent_to_team rec = Config.get_team_email (config env) (value (action_taken rec))
    /\ (if ok then error_message rec = None
        else exists m, error_message rec = Some m /\ m <> EmptyString).
Proof.
  unfold _process_single_email. rewrite analyze_email_eq.
  unfold LlmAnalyzer.analyze_email_body.
  destruct (try_except _ _) as [analysis|].
  - rewrite send_summary_email_eq.
    destruct (EmailSender._send_via_transport _ _ _).
    + do 3 eexists. cbn. repeat split.
    + do 3 eexists. cbn. repeat split. eexists. split; [reflexivity|discriminate].
  - unfold EmailSender.send_error_notification. rewrite send_summary_email_eq.
    do 3 eexists. cbn. repeat split. eexists. split; [reflexivity|discriminate].
Qed.

Lemma count_success_cons ok r rows :
  count_success ok (r :: rows)
  = (if Bool.eqb (success r) ok then 1 else 0) + count_success ok rows.
Proof.
  unfold count_success. cbn [List.filter].
  destruct (Bool.eqb (success r) ok); cbn [length]; lia.
Qed.

Lemma success_ids_cons r rows :
  success_ids (r :: rows)
  = if success r then original_message_id r :: success_ids rows else success_ids rows.
Proof. unfold success_ids. cbn [List.filter]. now destruct (success r). Qed.

(** The loop over the new emails: one row and one message per email. *)
Lemma process_each_spec env emails : forall r w,
  exists rows msgs,
    db (snd (process_each env emails r w)) = (db w ++ rows)%list
    /\ map original_message_id rows = map message_id emails
    /\ outbox (snd (process_each env emails r w)) = (outbox w ++ msgs)%list
    /\ map recipient msgs = map sent_to_team rows
    /\ read_marks (snd (process_each env emails r w))
       = (read_marks w ++ success_ids rows)%list
    /\ processed_count (fst (process_each env emails r w))
       = processed_count r + Z.of_nat (length emails)
    /\ successful_count (fst (process_each env emails r w))
       = successful_count r + count_success true rows
    /\ failed_count (fst (process_each env emails r w))
       = failed_count r + count_success false rows
    /\ skipped_count (fst (process_each env emails r w)) = skipped_count r
    /\ errors (fst (process_each env emails r w)) = errors r.
Proof.
  induction emails as [|e rest IH]; intros r w.
  - exists nil, nil. unfold count_success. cbn. rewrite !app_nil_r.
    repeat split; try reflexivity; lia.
  - cbn [process_each].
    destruct (process_single_email_spec env e w)
      as (ok & rec & msg & Hret & Hdb & Hout & Hmarks & Hid & Hok & Hrc & _).
    destruct (_process_single_email env e w) as [x w1]. cbn [fst snd] in *. subst x.
    destruct ok.
    + destruct (EmailReader.mark_as_read env (message_id e) w1) as [b w2] eqn:Em.
      assert (Hw2 : db w2 = db w1 /\ outbox w2 = outbox w1
                    /\ read_marks w2 = (read_marks w1 ++ [message_id e])%list).
      { unfold EmailReader.mark_as_read in Em. injection Em as _ <-. cbn. auto. }
      destruct Hw2 as (D2 & O2 & M2).
      destruct (IH (bump_successful (bump_processed r)) w2)
        as (rows & msgs & Hd & Hi & Ho & Hr & Hm & H1 & H2 & H3 & H4 & H5).
      exists (rec :: rows), (msg :: msgs).
      rewrite Hd, Ho, Hm, H1, H2, H3, H4, H5, D2, O2, M2, Hdb, Hout, Hmarks.
      rewrite !count_success_cons, success_ids_cons, Hok. cbn.
      rewrite Hid, Hi, Hr, Hrc, <- ?app_assoc. cbn.
      repeat split; try reflexivity; lia.
    + destruct (IH (bump_failed (bump_processed r)) w1)
        as (rows & msgs & Hd & Hi & Ho & Hr & Hm & H1 & H2 & H3 & H4 & H5).
      exists (rec :: rows), (msg :: msgs).
      rewrite Hd, Ho, Hm, H1, H2, H3, H4, H5, Hdb, Hout, Hmarks.
      rewrite !count_success_cons, success_ids_cons, Hok. cbn.
      rewrite Hid, Hi, Hr, Hrc, <- ?app_assoc. cbn.
      repeat split; try reflexivity; lia.
Qed.

Lemma count_success_total rows :
  count_success true rows + count_success false rows = Z.of_nat (length rows).
Proof.
  induction rows as [|r rows IH]; [reflexivity|].
  rewrite !count_success_cons. cbn [length]. destruct (success r); cbn; lia.
Qed.

Lemma finish_spec env r w :
  let r' := fst (finish env r w) in
  let w' := snd (finish env r w) in
  processed_count r' = processed_count r /\ successful_count r' = successful_count r
  /\ failed_count r' = failed_count r /\ skipped_count r' = skipped_count r
  /\ errors r' = errors r
  /\ db w' = db w /\ outbox w' = outbox w /\ read_marks w' = read_marks w.
Proof. cbn. repeat split. Qed.

(** A cycle, from the answer of the mailbox. *)
Lemma process_alerts_spec env w :
  let fetched :=
    fst (EmailReader.fetch_unread_emails env (Config.max_emails_per_batch (config env))
           (snd (now env w))) in
  let r := fst (process_alerts env w) in
  let w' := snd (process_alerts env w) in
  exists rows msgs,
    db w' = (db w ++ rows)%list
    /\ outbox w' = (outbox w ++ msgs)%list
    /\ map recipient msgs = map sent_to_team rows
    /\ read_marks w' = (read_marks w ++ success_ids rows)%list
    /\ processed_count r = Z.of_nat (length rows)
    /\ successful_count r = count_success true rows
    /\ failed_count r = count_success false rows
    /\ match fetched with
       | Ret emails =>
           errors r = []
           /\ map original_message_id rows = map message_id (new_emails emails (db w))
           /\ skipped_count r = Z.of_nat (length emails) - Z.of_nat (length rows)
       | Raise e =>
           rows = [] /\ msgs = []
           /\ errors r = ["Critical error in alert processing: " ++ exn_str e]
           /\ skipped_count r = 0
       end.
Proof.
  cbv zeta. unfold process_alerts.
  destruct (now env w) as [start w0] eqn:En.
  assert (Hw0 : db w0 = db w /\ outbox w0 = outbox w /\ read_marks w0 = read_marks w).
  { unfold now in En. injection En as _ <-. cbn. auto. }
  destruct Hw0 as (D0 & O0 & M0). cbn [snd].
  pose proof (fetch_keeps_world env (Config.max_emails_per_batch (config env)) w0) as Hf.
  destruct (EmailReader.fetch_unread_emails env _ w0) as [fetched w1].
  cbv zeta in Hf. cbn [fst snd] in *. destruct Hf as (D1 & O1 & M1).
  destruct fetched as [emails|e].
  - destruct emails as [|e0 emails].
    { exists nil, nil. cbn. rewrite !app_nil_r, ?D1, ?D0, ?O1, ?O0, ?M1, ?M0.
      repeat split; try reflexivity; lia. }
    unfold _filter_unprocessed_emails.
    change (List.filter _ (e0 :: emails)) with (new_emails (e0 :: emails) (db w1)).
    rewrite D1, D0.
    destruct (new_emails (e0 :: emails) (db w)) as [|n0 news] eqn:Enew.
    { exists nil, nil. cbn. rewrite !app_nil_r, ?D1, ?D0, ?O1, ?O0, ?M1, ?M0.
      repeat split; try reflexivity; lia. }
    pose proof (process_each_spec env (n0 :: news)
      (set_skipped (Z.of_nat (length (e0 :: emails)) - Z.of_nat (length (n0 :: news)))
         {| processed_count := 0; successful_count := 0; failed_count := 0;
            skipped_count := 0; errors := []; start_time := start; end_time := None;
            duration := 0 |}) w1)
      as (rows & msgs & Hd & Hi & Ho & Hr & Hm & H1 & H2 & H3 & H4 & H5).
    destruct (process_each env (n0 :: news) _ w1) as [r2 w2]. cbn [fst snd] in *.
    exists rows, msgs. cbn.
    assert (Hl : length rows = length (n0 :: news)).
    { rewrite <- (length_map original_message_id rows), Hi. apply length_map. }
    rewrite Hd, Ho, Hm, H1, H2, H3, H4, H5, D1, D0, O1, O0, M1, M0, Hl.
    cbn. repeat split; try reflexivity; try lia; assumption.
  - exists nil, nil. cbn. rewrite !app_nil_r, ?D1, ?D0, ?O1, ?O0, ?M1, ?M0.
    repeat split; try reflexivity; lia.
Qed.

(** An id that [check_duplicate] reports stands in the id column. *)
Lemma check_duplicate_in k df :
  Database.check_duplicate k df = true -> In k (map original_message_id df).
Proof.
  intros H. destruct (in_dec string_dec k (map original_message_id df)) as [i|n]; [exact i|].
  rewrite (check_duplicate_absent _ _ n) in H. discriminate H.
Qed.

(** X5.  Handling one email never raises to the cycle.  Whatever the
    classifier and the transport answer, it appends exactly one row
    for that message, with success equal to the boolean it returns,
    and hands exactly one message to the transport (the summary, or
    the error notification when there is no analysis); the message goes
    to the address the row records in sent_to_team, which is the team
    routed for the row's action; the row carries an error message
    exactly when the result is False; no message is marked read. *)
Theorem process_single_email_outcome env email_data w :
  let result := fst (_process_single_email env email_data w) in
  let w' := snd (_process_single_email env email_data w) in
  exists ok rec msg,
    result = Ret ok
    /\ db w' = (db w ++ [rec])%list
    /\ outbox w' = (outbox w ++ [msg])%list
    /\ read_marks w' = read_marks w
    /\ original_message_id rec = message_id email_data
    /\ success rec = ok
    /\ recipient msg = sent_to_team rec
    /\ sent_to_team rec = Config.get_team_email (config env) (value (action_taken rec))
    /\ (error_message rec = None <-> ok = true).
Proof.
  cbv zeta.
  destruct (process_single_email_spec env email_data w)
    as (ok & rec & msg & H1 & H2 & H3 & H4 & H5 & H6 & H7 & _ & H8 & H9).
  exists ok, rec, msg. repeat split; try assumption.
  - destruct ok; [reflexivity|]. destruct H9 as (m & Hm & _). congruence.
  - intros ->. exact H9.
Qed.

(** X6.  The counters of a cycle agree with what the cycle did.  The
    rows a cycle appends to the log are as many as processed_count;
    successful_count and failed_count are the numbers of those rows
    with success True and False, so processed = successful + failed;
    one message is handed to the transport per row, addressed to the
    team the row records; and mark_as_read is called for exactly the
    messages of the successful rows, in order.  The rows that were in
    the log stay, in place. *)
Theorem process_alerts_accounting env w :
  let r := fst (process_alerts env w) in
  let w' := snd (process_alerts env w) in
  exists rows msgs,
    db w' = (db w ++ rows)%list
    /\ processed_count r = Z.of_nat (length rows)
    /\ successful_count r = count_success true rows
    /\ failed_count r = count_success false rows
    /\ processed_count r = successful_count r + failed_count r
    /\ outbox w' = (outbox w ++ msgs)%list
    /\ map recipient msgs = map sent_to_team rows
    /\ read_marks w' = (read_marks w ++ success_ids rows)%list.
Proof.
  cbv zeta.
  destruct (process_alerts_spec env w)
    as (rows & msgs & Hd & Ho & Hr & Hm & H1 & H2 & H3 & _).
  exists rows, msgs. repeat split; try assumption.
  rewrite H1, H2, H3. symmetry. apply count_success_total.
Qed.

(** X7.  When the mailbox answers, every fetched email is either
    skipped or handled: the cycle records no error, appends one row
    per fetched email that check_duplicate does not report, in the
    order of the batch, counts the others as skipped (processed +
    skipped = fetched), and afterwards every fetched email has a row
    in the log. *)
Theorem process_alerts_covers_batch env w emails :
  fst (EmailReader.fetch_unread_emails env (Config.max_emails_per_batch (config env))
         (snd (now env w))) = Ret emails ->
  let r := fst (process_alerts env w) in
  let w' := snd (process_alerts env w) in
  errors r = []
  /\ map original_message_id (drop (length (db w)) (db w'))
     = map message_id (new_emails emails (db w))
  /\ processed_count r + skipped_count r = Z.of_nat (length emails)
  /\ forall e, In e emails -> In (message_id e) (map original_message_id (db w')).
Proof.
  intros Hf. cbv zeta.
  destruct (process_alerts_spec env w)
    as (rows & msgs & Hd & _ & _ & _ & H1 & _ & _ & Hm).
  cbv zeta in Hm. rewrite Hf in Hm. destruct Hm as (He & Hi & Hs).
  rewrite Hd, drop_app_length. repeat split; try assumption; [lia|].
  intros e Hin. rewrite map_app. apply in_or_app.
  destruct (Database.check_duplicate (message_id e) (db w)) eqn:Ed.
  - left. now apply check_duplicate_in.
  - right. rewrite Hi. apply in_map. unfold new_emails. apply filter_In.
    split; [exact Hin|]. now rewrite Ed.
Qed.

(** On the sample email and an empty log: the one fetched email is logged. *)
Lemma process_alerts_covers_batch_witness :
  let r := fst (process_alerts Samples.env_db_timeout Samples.empty_world) in
  let w' := snd (process_alerts Samples.env_db_timeout Samples.empty_world) in
  errors r = []
  /\ map original_message_id (db w') = ["test_message_123"]
  /\ processed_count r + skipped_count r = 1
  /\ In "test_message_123" (map original_message_id (db w')).
Proof.
  destruct (process_alerts_covers_batch Samples.env_db_timeout Samples.empty_world
              [Samples.sample_email_data] eq_refl) as (H1 & H2 & H3 & H4).
  split; [exact H1|]. split; [exact H2|]. split; [exact H3|].
  apply (H4 Samples.sample_email_data). left. reflexivity.
Defined.

(** X8.  When the fetch of the cycle raises (all attempts used up),
    the cycle stops there: it records the one critical error, counts
    nothing as processed, successful, failed or skipped, and leaves
    the log, the outbox and the read marks as they were. *)
Theorem fetch_failure_aborts_cycle env w e :
  fst (EmailReader.fetch_unread_emails env (Config.max_emails_per_batch (config env))
         (snd (now env w))) = Raise e ->
  let r := fst (process_alerts env w) in
  let w' := snd (process_alerts env w) in
  errors r = ["Critical error in alert processing: " ++ exn_str e]
  /\ processed_count r = 0 /\ successful_count r = 0
  /\ failed_count r = 0 /\ skipped_count r = 0
  /\ same_effects w w'.
Proof.
  intros Hf. cbv zeta.
  destruct (process_alerts_spec env w)
    as (rows & msgs & Hd & Ho & _ & Hm & H1 & H2 & H3 & Hx).
  cbv zeta in Hx. rewrite Hf in Hx. destruct Hx as (-> & -> & He & Hs).
  rewrite app_nil_r in *. unfold same_effects. repeat split; assumption.
Qed.

(** With a mailbox that fails on every attempt of the cycle. *)
Lemma fetch_failure_aborts_cycle_witness :
  let r := fst (process_alerts Samples.env_fetch_fails Samples.empty_world) in
  let w' := snd (process_alerts Samples.env_fetch_fails Samples.empty_world) in
  errors r = ["Critical error in alert processing: RetryError[503 Service Unavailable]"]
  /\ processed_count r = 0 /\ successful_count r = 0
  /\ failed_count r = 0 /\ skipped_count r = 0
  /\ same_effects Samples.empty_world w'.
Proof.
  exact (fetch_failure_aborts_cycle Samples.env_fetch_fails Samples.empty_world
           (RetryError (TransportError "503 Service Unavailable")) eq_refl).
Defined.

End CycleAccounting.

Section RetryFacts.
Import Py Models Services Properties.

(** Three attempts, spelled out. *)
Lemma retry_three {A} (body : nat -> res A) :
  retry 3 body =
  match body 0%nat with
  | Ret a => (Ret a, 1%nat)
  | Raise _ =>
      match body 1%nat with
      | Ret a => (Ret a, 2%nat)
      | Raise _ =>
          match body 2%nat with
          | Ret a => (Ret a, 3%nat)
          | Raise e => (Raise (RetryError e), 3%nat)
          end
      end
  end.
Proof.
  unfold retry. destruct (body 0%nat); [reflexivity|]. cbn.
  destruct (body 1%nat); [reflexivity|]. destruct (body 2%nat); reflexivity.
Qed.

(** X9.  fetch_unread_emails asks the mailbox at most three times.  It
    returns the answer of the first attempt that does not raise, and
    no attempt is made after it; it raises only when all three
    attempts raised, and then a RetryError that wraps the exception of
    the third; the log, the outbox and the read marks are untouched. *)
Theorem fetch_unread_emails_attempts env max_results w :
  let result := fst (EmailReader.fetch_unread_emails env max_results w) in
  let w' := snd (EmailReader.fetch_unread_emails env max_results w) in
  let attempt k := list_unread env (tick w + k) max_results in
  let made := (tick w' - tick w)%nat in
  same_effects w w'
  /\ (1 <= made <= 3)%nat
  /\ (forall k, (S k < made)%nat -> raises (attempt k) = true)
  /\ match result with
     | Ret emails => attempt (made - 1)%nat = Ret emails
     | Raise e =>
         made = 3%nat /\ exists e3, attempt 2%nat = Raise e3 /\ e = RetryError e3
     end.
Proof.
  cbv zeta. unfold EmailReader.fetch_unread_emails. rewrite retry_three.
  unfold same_effects.
  destruct (list_unread env (tick w + 0) max_results) as [l0|e0] eqn:E0; cbn.
  { replace (tick w + 1 - tick w)%nat with 1%nat by lia. cbn.
    repeat split; try lia. exact E0. }
  destruct (list_unread env (tick w + 1) max_results) as [l1|e1] eqn:E1; cbn.
  { replace (tick w + 2 - tick w)%nat with 2%nat by lia. cbn.
    repeat split; try lia; [|exact E1].
    intros k Hk. assert (k = 0%nat) as -> by lia. now rewrite E0. }
  destruct (list_unread env (tick w + 2) max_results) as [l2|e2] eqn:E2; cbn.
  { replace (tick w + 3 - tick w)%nat with 3%nat by lia. cbn.
    repeat split; try lia; [|exact E2].
    intros k Hk. assert (k = 0%nat \/ k = 1%nat) as [-> | ->] by lia;
      [now rewrite E0|now rewrite E1]. }
  replace (tick w + 3 - tick w)%nat with 3%nat by lia.
  repeat split; try lia; [|eauto].
  intros k Hk. assert (k = 0%nat \/ k = 1%nat) as [-> | ->] by lia;
    [now rewrite E0|now rewrite E1].
Qed.

End RetryFacts.

Section SenderFacts.
Import Py Models Services Properties.

(** X10.  send_summary_email makes one delivery attempt and never
    raises, whatever number of attempts the configuration asks for:
    the body turns every exception of the transport into False, so
    the retry around it never sees a failure.  The result is True
    exactly when the transport returned. *)
Theorem send_summary_email_single_attempt env n summary_email w :
  let result := fst (EmailSender.send_summary_email env summary_email w) in
  let w' := snd (EmailSender.send_summary_email env summary_email w) in
  EmailSender.send_summary_email (with_retry_attempts n env) summary_email w
  = EmailSender.send_summary_email env summary_email w
  /\ result = Ret (negb (raises (deliver env (tick w) summary_email)))
  /\ outbox w' = (outbox w ++ [summary_email])%list
  /\ tick w' = S (tick w)
  /\ db w' = db w /\ read_marks w' = read_marks w.
Proof.
  cbv zeta. rewrite !send_summary_email_eq. cbn.
  unfold EmailSender._send_via_transport. cbn.
  destruct (deliver env (tick w) summary_email); cbn; repeat split; f_equal; lia.
Qed.

(** X11.  analyze_email queries the classifier once, whatever number
    of attempts the configuration asks for, and touches neither the
    log nor the outbox nor the read marks. *)
Theorem analyze_email_single_query env n email_data w :
  let w' := snd (LlmAnalyzer.analyze_email env email_data w) in
  LlmAnalyzer.analyze_email (with_retry_attempts n env) email_data w
  = LlmAnalyzer.analyze_email env email_data w
  /\ tick w' = S (tick w)
  /\ same_effects w w'.
Proof.
  cbv zeta. rewrite !analyze_email_eq. unfold same_effects. cbn.
  repeat split; lia.
Qed.

End SenderFacts.

Section HealthCheck.
Import Py Models Services Properties Processor.

Lemma test_connections_spec env w :
  let r := test_connections env w in
  let fetched := EmailReader.fetch_unread_emails env 1 w in
  fst r = (negb (raises (fst fetched)), true,
           negb (raises (get_profile env (S (tick (snd fetched))))), true)
  /\ same_effects w (snd r).
Proof.
  cbv zeta. unfold test_connections.
  pose proof (fetch_keeps_world env 1 w) as Hf. cbv zeta in Hf.
  destruct (EmailReader.fetch_unread_emails env 1 w) as [r w1]. cbn [fst snd] in *.
  unfold now, EmailSender.test_connection, same_effects. cbn.
  replace (tick w1 + 1)%nat with (S (tick w1)) by lia.
  split; [|exact Hf].
  destruct (get_profile env (S (tick w1))); reflexivity.
Qed.

Lemma run_health_check_effects env w :
  same_effects w (snd (run_health_check env w)).
Proof.
  unfold run_health_check.
  destruct (test_connections_spec env w) as (_ & He). cbv zeta in He.
  destruct (test_connections env w) as [[[[a b] c] d] w1]. exact He.
Qed.

Lemma test_connections_classifier env llm w :
  test_connections (with_classifier llm env) w = test_connections env w.
Proof. reflexivity. Qed.

(** X12.  The health check passes exactly when the mailbox answers a
    fetch of one email (within its three attempts) and the sender's
    profile request returns.  It never queries the classifier: with
    any other classifier the outcome is the same.  It writes nothing
    to the log, sends nothing and marks nothing read. *)
Theorem run_health_check_spec env llm w :
  let fetched := EmailReader.fetch_unread_emails env 1 w in
  (fst (run_health_check env w) = true <->
     raises (fst fetched) = false
     /\ raises (get_profile env (S (tick (snd fetched)))) = false)
  /\ run_health_check (with_classifier llm env) w = run_health_check env w
  /\ same_effects w (snd (run_health_check env w)).
Proof.
  cbv zeta. unfold run_health_check.
  rewrite (test_connections_classifier env llm w).
  destruct (test_connections_spec env w) as (Hr & He). cbv zeta in Hr, He.
  destruct (test_connections env w) as [[[[a b] c] d] w1]. cbn [fst snd] in *.
  injection Hr as -> -> -> ->.
  repeat split; try apply He.
  - destruct (raises _); [discriminate|reflexivity].
  - rewrite !andb_true_r in H. apply andb_prop in H as [_ H].
    now apply negb_true_iff in H.
  - intros [-> ->]. reflexivity.
Qed.

(** X13.  When the health check fails, run_once runs no cycle:
    it returns False with no results, the one-shot mode exits with
    status 1, and the log, the outbox and the read marks are as they
    were. *)
Theorem run_once_unhealthy env w :
  fst (run_health_check env w) = false ->
  let '(ok, results, w') := Scheduler.run_once env w in
  ok = false /\ results = None
  /\ fst (Main.main_once env w) = 1
  /\ same_effects w w'.
Proof.
  intros H. unfold Main.main_once, Scheduler.run_once.
  pose proof (run_health_check_effects env w) as He.
  destruct (run_health_check env w) as [healthy w1]. cbn [fst snd] in *. subst healthy.
  cbn. repeat split; apply He.
Qed.

(** With a mailbox that cannot be reached. *)
Lemma run_once_unhealthy_witness :
  let env := Samples.env_with (fun _ _ => Ret "This is not valid JSON")
               (fun _ _ => Raise (TransportError "503 Service Unavailable")) in
  let '(ok, results, w') := Scheduler.run_once env Samples.empty_world in
  ok = false /\ results = None
  /\ fst (Main.main_once env Samples.empty_world) = 1
  /\ same_effects Samples.empty_world w'.
Proof.
  exact (run_once_unhealthy
           (Samples.env_with (fun _ _ => Ret "This is not valid JSON")
              (fun _ _ => Raise (TransportError "503 Service Unavailable")))
           Samples.empty_world eq_refl).
Defined.

(** X14.  Mode test of main exits with status 0 exactly when the
    health check of the same state passes, and changes neither the
    log nor the outbox nor the read marks. *)
Theorem main_test_exit_code env w :
  (fst (Cli.main_test env w) = 0 <-> fst (run_health_check env w) = true)
  /\ (fst (Cli.main_test env w) = 1 <-> fst (run_health_check env w) = false)
  /\ same_effects w (snd (Cli.main_test env w)).
Proof.
  unfold Cli.main_test, run_health_check.
  destruct (test_connections_spec env w) as (_ & He). cbv zeta in He.
  destruct (test_connections env w) as [[[[a b] c] d] w1]. cbn [fst snd] in *.
  destruct (a && b && c && d); repeat split; try discriminate; try reflexivity; apply He.
Qed.

End HealthCheck.

Section BatchFacts.
Import Py Models Services Properties.

Lemma analyze_batch_from_spec env emails : forall results w,
  let out := Batch.analyze_batch_from env emails results w in
  (forall mid, is_Some (fst out !! mid)
               <-> In mid (map message_id emails) \/ is_Some (results !! mid))
  /\ tick (snd out) = (tick w + length emails)%nat
  /\ same_effects w (snd out)
  /\ (NoDup (map message_id emails) ->
      forall i e, emails !! i = Some e ->
        exists r, fst out !! message_id e = Some r
                  /\ LlmAnalyzer.analyze_email_body env e (tick w + i) = Ret r)
  /\ (forall mid, ~ In mid (map message_id emails) -> fst out !! mid = results !! mid).
Proof.
  induction emails as [|e rest IH]; intros results w; cbv zeta.
  - cbn. unfold same_effects. repeat split; try tauto; try lia.
    intros _ i e H. discriminate H.
  - cbn [Batch.analyze_batch_from]. rewrite analyze_email_eq.
    unfold LlmAnalyzer.analyze_email_body at 1. cbn [try_except].
    set (a := try_except _ _).
    destruct (IH (<[message_id e := a]> results) (advance 1 w))
      as (Hk & Ht & He & Hn & Ho).
    cbv zeta in Hk, Ht, He, Hn, Ho.
    repeat split.
    + intros H. apply Hk in H as [H|H]; [left; right; exact H|].
      destruct (decide (message_id e = mid)) as [<-|Hne].
      * left. left. reflexivity.
      * rewrite lookup_insert_ne in H by exact Hne. right. exact H.
    + intros H. apply Hk.
      destruct (decide (message_id e = mid)) as [<-|Hne].
      * right. rewrite lookup_insert_eq. eauto.
      * rewrite lookup_insert_ne by exact Hne. destruct H as [[H|H]|H]; tauto.
    + rewrite Ht. cbn. lia.
    + apply He.
    + apply He.
    + apply He.
    + intros Hnd i e' Hi. cbn [map] in Hnd. apply NoDup_cons in Hnd as [Hnotin Hnd'].
      destruct i as [|i]; cbn in Hi.
      * injection Hi as <-. exists a. split.
        -- rewrite Ho by (intros H; apply Hnotin, list_elem_of_In, H).
           apply lookup_insert_eq.
        -- unfold LlmAnalyzer.analyze_email_body. subst a.
           now rewrite Nat.add_0_r.
      * destruct (Hn Hnd' i e' Hi) as (r & Hr & Hb). exists r. split; [exact Hr|].
        cbn in Hb. now replace (tick w + S i)%nat with (tick w + 1 + i)%nat by lia.
    + intros mid Hmid. rewrite Ho by (intros H; apply Hmid; right; exact H).
      apply lookup_insert_ne. intros E. apply Hmid. left. exact E.
Qed.

(** X15.  analyze_batch returns an entry for each message id of the
    batch and for no other id; it queries the classifier once per
    email, in order, and touches neither the log nor the outbox nor
    the read marks.  When the ids of the batch are distinct, the entry
    of an email is what analyze_email returns for it at its turn. *)
Theorem analyze_batch_entries env emails w :
  let analyses := fst (Batch.analyze_batch env emails w) in
  let w' := snd (Batch.analyze_batch env emails w) in
  (forall mid, is_Some (analyses !! mid) <-> In mid (map message_id emails))
  /\ tick w' = (tick w + length emails)%nat
  /\ same_effects w w'
  /\ (NoDup (map message_id emails) ->
      forall i e, emails !! i = Some e ->
        exists r, analyses !! message_id e = Some r
                  /\ fst (LlmAnalyzer.analyze_email env e (advance i w)) = Ret r).
Proof.
  cbv zeta. unfold Batch.analyze_batch.
  destruct (analyze_batch_from_spec env emails ∅ w) as (Hk & Ht & He & Hn & _).
  cbv zeta in Hk, Ht, He, Hn. repeat split; try assumption; try apply He.
  - intros H. apply Hk in H as [H|H]; [exact H|].
    rewrite lookup_empty in H. destruct H as [x H]. discriminate H.
  - intros H. apply Hk. left. exact H.
  - intros Hnd i e Hi. destruct (Hn Hnd i e Hi) as (r & Hr & Hb).
    exists r. split; [exact Hr|]. rewrite analyze_email_eq. exact Hb.
Qed.

(** The summaries [send_batch_summaries] hands to the transport. *)
Lemma send_batch_from_spec env analyses emails : forall results w,
  let out := Batch.send_batch_from env emails analyses results w in
  (forall mid, is_Some (fst out !! mid)
               <-> In mid (map message_id emails) \/ is_Some (results !! mid))
  /\ (forall e, In e emails ->
        Batch.analysis_of analyses (message_id e) = None ->
        fst out !! message_id e = Some false)
  /\ (forall mid, ~ In mid (map message_id emails) -> fst out !! mid = results !! mid)
  /\ outbox (snd out)
     = (outbox w ++ omap (fun e => Batch.batch_summary env e
                                    <$> Batch.analysis_of analyses (message_id e)) emails)%list
  /\ db (snd out) = db w /\ read_marks (snd out) = read_marks w.
Proof.
  induction emails as [|e rest IH]; intros results w; cbv zeta.
  - cbn. rewrite app_nil_r. repeat split; tauto.
  - cbn [Batch.send_batch_from omap list_omap].
    assert (Hkeys : forall (b : bool) (out : gmap string bool),
      (forall mid, is_Some (out !! mid)
                   <-> In mid (map message_id rest)
                       \/ is_Some (<[message_id e := b]> results !! mid)) ->
      forall mid, is_Some (out !! mid)
                  <-> In mid (map message_id (e :: rest)) \/ is_Some (results !! mid)).
    { intros b out Hk mid. rewrite Hk. cbn [map In].
      destruct (decide (message_id e = mid)) as [<-|Hne].
      - rewrite lookup_insert_eq. split; [intros _; left; left; reflexivity|].
        intros _. right. eauto.
      - rewrite lookup_insert_ne by exact Hne. tauto. }
    assert (Hother : forall (b : bool) (out : gmap string bool),
      (forall mid, ~ In mid (map message_id rest) ->
                   out !! mid = <[message_id e := b]> results !! mid) ->
      forall mid, ~ In mid (map message_id (e :: rest)) -> out !! mid = results !! mid).
    { intros b out Ho mid Hmid. rewrite Ho by (intros H; apply Hmid; right; exact H).
      apply lookup_insert_ne. intros E. apply Hmid. left. exact E. }
    destruct (Batch.analysis_of analyses (message_id e)) as [analysis|] eqn:Ea.
    + rewrite send_summary_email_eq. cbn [try_except fmap option_fmap option_map].
      set (b := EmailSender._send_via_transport _ _ _).
      destruct (IH (<[message_id e := b]> results)
                  (push_outbox 1 (Batch.batch_summary env e analysis) (advance 1 w)))
        as (Hk & Hf & Ho & Hout & Hdb & Hm).
      cbv zeta in Hk, Hf, Ho, Hout, Hdb, Hm.
      split; [exact (Hkeys b _ Hk)|]. split.
      { intros e' [<-|Hin] Hnone; [congruence|]. now apply Hf. }
      split; [exact (Hother b _ Ho)|].
      rewrite Hout, Hdb, Hm. cbn. rewrite <- app_assoc. repeat split.
    + destruct (IH (<[message_id e := false]> results) w)
        as (Hk & Hf & Ho & Hout & Hdb & Hm).
      cbv zeta in Hk, Hf, Ho, Hout, Hdb, Hm.
      split; [exact (Hkeys false _ Hk)|]. split.
      { intros e' [<-|Hin] Hnone; [|now apply Hf].
        destruct (in_dec string_dec (message_id e) (map message_id rest)) as [i|n].
        - apply in_map_iff in i as (e2 & E2 & Hin2).
          pose proof (Hf e2 Hin2) as Hx. rewrite E2 in Hx. now apply Hx.
        - rewrite Ho by exact n. apply lookup_insert_eq. }
      split; [exact (Hother false _ Ho)|].
      rewrite Hout, Hdb, Hm. cbn. repeat split.
Qed.

(** X16.  send_batch_summaries returns an entry for each message id
    of the batch and for no other id; an email without an analysis (no
    entry, or an entry that is None) gets False and nothing is sent
    for it; for the others exactly one summary each is handed to the
    transport, in the order of the batch, addressed to the team routed
    for the analysis' action; the log and the read marks are
    untouched. *)
Theorem send_batch_summaries_spec env original_emails analyses w :
  let results := fst (Batch.send_batch_summaries env original_emails analyses w) in
  let w' := snd (Batch.send_batch_summaries env original_emails analyses w) in
  let summary e := Batch.batch_summary env e <$> Batch.analysis_of analyses (message_id e) in
  (forall mid, is_Some (results !! mid) <-> In mid (map message_id original_emails))
  /\ (forall e, In e original_emails ->
        Batch.analysis_of analyses (message_id e) = None ->
        results !! message_id e = Some false)
  /\ outbox w' = (outbox w ++ omap summary original_emails)%list
  /\ (forall e s, summary e = Some s ->
        exists a, Batch.analysis_of analyses (message_id e) = Some a
                  /\ recipient s = Config.get_team_email (config env) (value (action a)))
  /\ db w' = db w /\ read_marks w' = read_marks w.
Proof.
  cbv zeta. unfold Batch.send_batch_summaries.
  destruct (send_batch_from_spec env analyses original_emails ∅ w)
    as (Hk & Hf & _ & Hout & Hdb & Hm).
  cbv zeta in Hk, Hf, Hout, Hdb, Hm. repeat split; try assumption.
  - intros H. apply Hk in H as [H|H]; [exact H|].
    rewrite lookup_empty in H. destruct H as [x H]. discriminate H.
  - intros H. apply Hk. left. exact H.
  - intros e s Hs. destruct (Batch.analysis_of analyses (message_id e)) as [a|];
      [|discriminate]. injection Hs as <-. exists a. split; reflexivity.
Qed.

End BatchFacts.

Section ParserExtras.
Import Py Json Models Services LlmAnalyzer Properties.

Lemma chars_app a b : chars (a ++ b) = (chars a ++ chars b)%list.
Proof.
  unfold chars. induction a as [|c a IH]; [reflexivity|].
  simpl. f_equal. exact IH.
Qed.

(** The slice of a response that wraps a braced text. *)
Lemma json_slice_wrapped before m after :
  "{"%char ∉ chars before -> "}"%char ∉ chars after ->
  json_slice (before ++ "{" ++ m ++ "}" ++ after) = Some ("{" ++ m ++ "}").
Proof.
  intros Hb Ha. unfold json_slice, find, rfind, slice.
  rewrite !chars_app. cbn [chars list_ascii_of_string app].
  fold (chars m). fold (chars after). fold (chars before).
  set (B := chars before) in *. set (M := chars m). set (A := chars after) in *.
  rewrite find_from_first by exact Hb.
  assert (E : rfind_from "}" (B ++ "{"%char :: M ++ "}"%char :: A) 0 (-1)
              = Z.of_nat (length B + 1 + length M)).
  { change (B ++ "{"%char :: M ++ "}"%char :: A)%list
      with (B ++ ("{"%char :: M) ++ "}"%char :: A)%list.
    rewrite app_assoc, rfind_from_last by exact Ha.
    rewrite length_app. cbn [length]. lia. }
  rewrite E.
  replace (0 + Z.of_nat (length B) =? -1) with false by (symmetry; apply Z.eqb_neq; lia).
  replace (Z.of_nat (length B + 1 + length M) + 1 =? 0) with false
    by (symmetry; apply Z.eqb_neq; lia).
  cbn [orb]. f_equal.
  replace (Z.to_nat (0 + Z.of_nat (length B))) with (length B) by lia.
  replace (Z.to_nat (Z.of_nat (length B + 1 + length M) + 1 - (0 + Z.of_nat (length B))))
    with (length ("{"%char :: M ++ ["}"%char])) by (cbn [length]; rewrite length_app; cbn; lia).
  rewrite drop_app_length.
  assert (X : ("{"%char :: M ++ "}"%char :: A)%list
              = (("{"%char :: M ++ ["}"%char]) ++ A)%list)
    by (cbn [app]; rewrite <- app_assoc; reflexivity).
  rewrite X, take_app_length.
  rewrite <- (text_chars ("{" ++ m ++ "}")). f_equal.
  change ("{" ++ m ++ "}") with (String "{" (m ++ "}")).
  cbn [chars list_ascii_of_string]. fold (chars (m ++ "}")). now rewrite chars_app.
Qed.

(** X17.  Text around the JSON object does not change the outcome:
    when nothing before the object holds an opening brace and nothing
    after it holds a closing brace, the parser returns what it returns
    for the object alone. *)
Theorem parse_ignores_surrounding_text before m after :
  "{"%char ∉ chars before -> "}"%char ∉ chars after ->
  _parse_gemini_response (before ++ "{" ++ m ++ "}" ++ after)
  = _parse_gemini_response ("{" ++ m ++ "}").
Proof.
  intros Hb Ha. rewrite !parse_gemini_response_eq.
  rewrite (json_slice_wrapped before m after Hb Ha).
  pose proof (json_slice_wrapped EmptyString m EmptyString) as H0.
  cbn [chars list_ascii_of_string] in H0.
  specialize (H0 (not_elem_of_nil _) (not_elem_of_nil _)).
  change (EmptyString ++ "{" ++ m ++ "}" ++ EmptyString) with ("{" ++ m ++ "}" ++ EmptyString) in H0.
  assert (E : m ++ "}" ++ EmptyString = m ++ "}").
  { reflexivity. }
  change ("{" ++ m ++ "}" ++ EmptyString) with (String "{" (m ++ "}" ++ EmptyString)) in H0.
  rewrite E in H0. change (String "{" (m ++ "}")) with ("{" ++ m ++ "}") in H0.
  now rewrite H0.
Qed.

(** With a sentence before and after the object. *)
Lemma parse_ignores_surrounding_text_witness :
  _parse_gemini_response
    ("Here is my analysis: " ++ "{" ++
       (q "action" ++ ": " ++ q "Re-hit" ++ ", " ++ q "reason" ++ ": " ++ q "Temporary network issue")
       ++ "}" ++ " I hope this helps.")
  = _parse_gemini_response
      ("{" ++ (q "action" ++ ": " ++ q "Re-hit" ++ ", " ++ q "reason" ++ ": "
               ++ q "Temporary network issue") ++ "}").
Proof.
  apply (parse_ignores_surrounding_text "Here is my analysis: "
           (q "action" ++ ": " ++ q "Re-hit" ++ ", " ++ q "reason" ++ ": "
            ++ q "Temporary network issue") " I hope this helps.").
  - vm_compute. intros H. repeat (apply elem_of_cons in H as [H|H]; [discriminate H|]).
    now apply elem_of_nil in H.
  - vm_compute. intros H. repeat (apply elem_of_cons in H as [H|H]; [discriminate H|]).
    now apply elem_of_nil in H.
Defined.

(** What the constructor accepts. *)
Lemma LLMAnalysis_new_inv a rv cv an :
  LLMAnalysis_new a rv cv = Ret an ->
  action an = a
  /\ rv = JString (reason an)
  /\ match cv with
     | JNull => confidence an = None
     | v => exists f, as_number v = Some f
                      /\ in_unit_interval f = true
                      /\ confidence an = Some f
     end.
Proof.
  unfold LLMAnalysis_new.
  destruct rv as [| | | |r| |]; try discriminate.
  destruct (String.eqb (strip r) EmptyString); [discriminate|].
  destruct cv as [| |z|f| | |]; try discriminate.
  - intros [= <-]. repeat split.
  - destruct (in_unit_interval (float_of_int z)) eqn:Ei; [|discriminate].
    intros [= <-]. repeat split. eexists. repeat split. exact Ei.
  - destruct (in_unit_interval f) eqn:Ei; [|discriminate].
    intros [= <-]. repeat split. eexists. repeat split. exact Ei.
Qed.

Lemma ActionType_of_inv s a : ActionType_of s = Ret a -> s = value a.
Proof.
  unfold ActionType_of.
  destruct (String.eqb_spec s "Re-hit") as [->|_]; [now intros [= <-]|].
  destruct (String.eqb_spec s "Backend") as [->|_]; [now intros [= <-]|].
  destruct (String.eqb_spec s "Code") as [->|_]; [now intros [= <-]|discriminate].
Qed.

(** What an accepted response must look like. *)
Lemma validate_response_inv v analysis :
  validate_response v = Ret (Some analysis) ->
  exists d, v = JObject d
  /\ d !! "action" = Some (JString (value (action analysis)))
  /\ d !! "reason" = Some (JString (reason analysis))
  /\ match d !! "confidence" with
     | None => confidence analysis = Some conf_default
     | Some JNull => confidence analysis = None
     | Some v => exists f, as_number v = Some f
                           /\ in_unit_interval f = true
                           /\ confidence analysis = Some f
     end.
Proof.
  unfold validate_response, contains, get.
  destruct v as [| | | | | |d]; try discriminate.
  destruct (d !! "action") as [a|] eqn:Ea; [|discriminate].
  destruct (d !! "reason") as [r|] eqn:Er; [|discriminate].
  replace (bool_decide (is_Some (Some a))) with true
    by (symmetry; apply bool_decide_eq_true; eauto).
  replace (bool_decide (is_Some (Some r))) with true
    by (symmetry; apply bool_decide_eq_true; eauto).
  cbn [negb orb from_option Datatypes.id].
  destruct (action_is_valid a); cbn [negb]; [|discriminate].
  destruct a as [| | | |s| |]; try discriminate.
  destruct (ActionType_of s) as [at_|] eqn:Eat; [|discriminate]. cbn [res_bind].
  destruct (LLMAnalysis_new _ _ _) as [an|] eqn:En; [|discriminate]. cbn [res_bind].
  intros [= ->]. apply ActionType_of_inv in Eat. subst s.
  apply LLMAnalysis_new_inv in En as (Ha & Hr & Hc). subst at_ r.
  exists d. split; [reflexivity|]. split; [exact Ea|]. split; [exact Er|].
  destruct (d !! "confidence") as [cv|]; cbn [from_option Datatypes.id] in Hc.
  - destruct cv; exact Hc.
  - destruct Hc as (f & Hf & _ & Hc). cbn [as_number] in Hf. injection Hf as <-. exact Hc.
Qed.



End ParserExtras.

Section DatabaseExtras.
Import Py Models Services Database Properties.

(** X19.  check_duplicate has no false positive: it answers True only
    for an id that a row of the log carries, so a cycle skips no email
    that is not in the log; on the empty log it answers False. *)
Theorem check_duplicate_only_logged message_id df :
  check_duplicate message_id df = true ->
  exists r, In r df /\ original_message_id r = message_id.
Proof.
  intros H. destruct df as [|r0 df]; [discriminate H|].
  unfold check_duplicate in H. apply str_in_values_read in H.
  apply in_map_iff in H as (r & Hr & Hin). exists r. split; assumption.
Qed.

(** On the log of [test_check_duplicate]. *)
Lemma check_duplicate_only_logged_witness :
  exists r, In r [Samples.record "msg_123" BACKEND 0 true]
            /\ original_message_id r = "msg_123".
Proof.
  exact (check_duplicate_only_logged "msg_123"
           [Samples.record "msg_123" BACKEND 0 true] eq_refl).
Defined.

Lemma filter_filter_implied {A} (P Q : A -> Prop)
    `{!forall x, Decision (P x)} `{!forall x, Decision (Q x)} (l : list A) :
  (forall x, Q x -> P x) -> filter Q (filter P l) = filter Q l.
Proof.
  intros HPQ. induction l as [|x l IH]; [reflexivity|].
  rewrite !filter_cons. destruct (decide (P x)) as [p|np].
  - rewrite filter_cons. destruct (decide (Q x)); now rewrite IH.
  - destruct (decide (Q x)) as [q'|nq]; [exfalso; apply np, HPQ, q'|exact IH].
Qed.

Lemma cleanup_filter now days_to_keep df :
  cleanup_old_records now days_to_keep df
  = (Z.of_nat (length df)
     - Z.of_nat (length (filter (fun r => now - days_to_keep * day <= processed_at r) df)),
     filter (fun r => now - days_to_keep * day <= processed_at r) df).
Proof. destruct df; [reflexivity|]. reflexivity. Qed.




(** X22.  The limit at its edges: a limit of 0 is no limit, and a
    negative limit -k drops the first k rows of the filtered log and
    returns the rest. *)
Theorem limit_zero_or_negative n action_filter date_from date_to df :
  n <= 0 ->
  get_processed_emails (Some n) action_filter date_from date_to df
  = drop (Z.to_nat (- n)) (get_processed_emails None action_filter date_from date_to df).
Proof.
  intros Hn. unfold get_processed_emails.
  destruct df as [|r0 df]; [now rewrite drop_nil|].
  destruct (Z.eqb_spec n 0) as [->|Hne]; [reflexivity|].
  unfold tail. replace (0 <=? n) with false by (symmetry; apply Z.leb_gt; lia).
  reflexivity.
Qed.

(** On three rows: a limit of 0, and a limit of -1. *)
Lemma limit_zero_or_negative_witness :
  let r1 := Samples.record "msg_1" BACKEND 10 true in
  let r2 := Samples.record "msg_2" CODE 20 false in
  let r3 := Samples.record "msg_3" RE_HIT 30 true in
  get_processed_emails (Some 0) None None None [r1; r2; r3] = [r1; r2; r3]
  /\ get_processed_emails (Some (-1)) None None None [r1; r2; r3] = [r2; r3].
Proof.
  intros r1 r2 r3. split.
  - apply (limit_zero_or_negative 0 None None None [r1; r2; r3]). lia.
  - apply (limit_zero_or_negative (-1) None None None [r1; r2; r3]). lia.
Defined.

(** How often a value occurs in a column that [value_counts] reads. *)
Lemma value_counts_fold s col : forall m : gmap string Z,
  fold_left (fun m x => if is_na x then m else <[x := default 0 (m !! x) + 1]> m) col m !! s
  = if is_na s then m !! s
    else let n := Z.of_nat (length (List.filter (String.eqb s) col)) in
         if n =? 0 then m !! s else Some (default 0 (m !! s) + n).
Proof.
  induction col as [|x col IH]; intros m.
  - cbn [fold_left List.filter length]. destruct (is_na s); reflexivity.
  - cbn [fold_left List.filter]. rewrite IH. clear IH.
    destruct (is_na s) eqn:Es.
    + destruct (is_na x) eqn:Ex; [reflexivity|].
      apply lookup_insert_ne. intros ->. congruence.
    + cbv zeta. destruct (String.eqb_spec s x) as [<-|Hne].
      * rewrite Es, lookup_insert_eq. cbn [length from_option Datatypes.id].
        set (k := length _).
        replace (Z.of_nat (S k) =? 0) with false by (symmetry; apply Z.eqb_neq; lia).
        destruct (Z.eqb_spec (Z.of_nat k) 0) as [E|E]; f_equal; lia.
      * assert (Hm : (if is_na x then m else <[x := default 0 (m !! x) + 1]> m) !! s = m !! s).
        { destruct (is_na x); [reflexivity|]. apply lookup_insert_ne. congruence. }
        now rewrite Hm.
Qed.

Lemma value_counts_lookup s col :
  value_counts col !! s
  = if is_na s then None
    else let n := Z.of_nat (length (List.filter (String.eqb s) col)) in
         if n =? 0 then None else Some n.
Proof.
  unfold value_counts. rewrite value_counts_fold, lookup_empty. cbn.
  destruct (is_na s); [reflexivity|]. now destruct (_ =? 0).
Qed.

Lemma filter_map_length {A B} (f : A -> B) (p : B -> bool) (l : list A) :
  length (List.filter p (map f l)) = length (List.filter (fun x => p (f x)) l).
Proof.
  induction l as [|x l IH]; [reflexivity|]. cbn. destruct (p (f x)); cbn; now rewrite IH.
Qed.

Lemma rows_with_action_total rows :
  rows_with_action RE_HIT rows + rows_with_action BACKEND rows + rows_with_action CODE rows
  = Z.of_nat (length rows).
Proof.
  unfold rows_with_action. induction rows as [|r rows IH]; [reflexivity|].
  cbn [List.filter]. destruct (action_taken r);
    repeat match goal with
           | |- context [String.eqb ?a ?b] =>
               let v := eval vm_compute in (String.eqb a b) in
               change (String.eqb a b) with v
           end; cbn [length]; lia.
Qed.


End DatabaseExtras.
